(** * LucidAd: the validated analyze request

    A shallow embedding of the server side of [lucid_ad_next.jsx]:

    - [lib/schema.ts]: the Zod schemas [sourceZ] and [factCheckZ];
    - [app/api/analyze/route.ts]: the [POST] handler.

    The schemas are written with the combinators of the Zod library, which
    is not part of the repository.  The development therefore starts with
    the JavaScript values the handler manipulates and with the parse
    functions of the Zod 3 combinators the schemas use ([z.string],
    [z.number], [z.array], [z.object], [nullable], [optional], [default],
    [url], [int], [min], [max], then [safeParse], [parse] and [flatten]).

    What the code calls but does not define is a parameter: the [URL]
    constructor behind [z.string().url()] and [JSON.parse] are the members
    of the class [Platform], the configured model name and the inference
    client those of the class [Service], and a [Request] carries the
    outcome of reading its body.  Every theorem holds for all of them. *)

From Stdlib Require Import ZArith QArith Qcanon String List Bool Lia DecimalString.
From stdpp Require Import gmap strings list.

(** ** JavaScript values *)

(** A JavaScript number, by its mathematical value.  A finite double is a
    rational, kept in canonical form so that equal numbers are equal terms;
    the two zeros are identified, as [===] identifies them.  The checks of
    the schema ([Number.isInteger], [<], [>]) are exact on that value. *)
Inductive number :=
| NaN
| Infinity (negative : bool)
| Finite (q : Qc).

Definition number_of_Z (n : Z) : number := Finite (Q2Qc (inject_Z n)).

(** [Number.isInteger]. *)
Definition isInteger (n : number) : bool :=
  match n with
  | Finite q => Pos.eqb (Qden (this q)) 1
  | _ => false
  end.

(** [a < b] and [a > b] on numbers; both are false when an operand is NaN. *)
Definition number_compare (a b : number) : option comparison :=
  match a, b with
  | NaN, _ | _, NaN => None
  | Infinity true, Infinity true => Some Eq
  | Infinity true, _ => Some Lt
  | Infinity false, Infinity false => Some Eq
  | Infinity false, _ => Some Gt
  | Finite _, Infinity true => Some Gt
  | Finite _, Infinity false => Some Lt
  | Finite p, Finite q => Some (p ?= q)%Qc
  end.

Definition number_lt (a b : number) : bool :=
  match number_compare a b with Some Lt => true | _ => false end.

Definition number_gt (a b : number) : bool :=
  match number_compare a b with Some Gt => true | _ => false end.

Definition number_le (a b : number) : bool :=
  match number_compare a b with Some Lt | Some Eq => true | _ => false end.

Definition number_ge (a b : number) : bool :=
  match number_compare a b with Some Gt | Some Eq => true | _ => false end.

Unset Elimination Schemes.

(** The values that flow through the route: what [JSON.parse] produces,
    plus [undefined], which is what reading an absent property gives.  An
    object is the list of its own properties in insertion order. *)
Inductive value :=
| VUndefined
| VNull
| VBool (b : bool)
| VNum (n : number)
| VStr (s : string)
| VArr (items : list value)
| VObj (fields : list (string * value)).

Set Elimination Schemes.

(** Structural induction on values, with the induction hypothesis for every
    array item and every property value. *)
Fixpoint value_nested_ind (P : value → Prop)
    (Hundef : P VUndefined) (Hnull : P VNull)
    (Hbool : ∀ b, P (VBool b)) (Hnum : ∀ n, P (VNum n))
    (Hstr : ∀ s, P (VStr s))
    (Harr : ∀ items, Forall P items → P (VArr items))
    (Hobj : ∀ fields, Forall (λ kv, P kv.2) fields → P (VObj fields))
    (v : value) {struct v} : P v :=
  let rec := value_nested_ind P Hundef Hnull Hbool Hnum Hstr Harr Hobj in
  match v with
  | VUndefined => Hundef
  | VNull => Hnull
  | VBool b => Hbool b
  | VNum n => Hnum n
  | VStr s => Hstr s
  | VArr items =>
      Harr items
        ((fix all (l : list value) : Forall P l :=
            match l with
            | [] => @List.Forall_nil _ P
            | x :: l' => @List.Forall_cons _ P x l' (rec x) (all l')
            end) items)
  | VObj fields =>
      Hobj fields
        ((fix all (l : list (string * value)) : Forall (λ kv, P kv.2) l :=
            match l with
            | [] => @List.Forall_nil _ _
            | kv :: l' => @List.Forall_cons _ _ kv l' (rec kv.2) (all l')
            end) fields)
  end.

(** Own-property lookup in a property list. *)
Fixpoint assoc {A : Type} (key : string) (fields : list (string * A)) : option A :=
  match fields with
  | [] => None
  | (k, v) :: rest => if String.eqb key k then Some v else assoc key rest
  end.

(** [data[key]] on the properties of an object: [undefined] when absent. *)
Definition get_field (fields : list (string * value)) (key : string) : value :=
  default VUndefined (assoc key fields).

(** [key in data] on the properties of an object. *)
Definition has_key (fields : list (string * value)) (key : string) : bool :=
  match assoc key fields with Some _ => true | None => false end.

(** [obj[key] = v]: overwrite in place, or append a new property. *)
Fixpoint set_field (key : string) (v : value) (fields : list (string * value))
  : list (string * value) :=
  match fields with
  | [] => [(key, v)]
  | (k, w) :: rest =>
      if String.eqb key k then (k, v) :: rest else (k, w) :: set_field key v rest
  end.

(** [v[key]] for a property name that is neither an index, [length] nor a
    member of a prototype: only objects have such properties. *)
Definition get (v : value) (key : string) : value :=
  match v with
  | VObj fields => get_field fields key
  | _ => VUndefined
  end.

(** [typeof v]. *)
Definition typeof (v : value) : string :=
  match v with
  | VUndefined => "undefined"
  | VNull => "object"
  | VBool _ => "boolean"
  | VNum _ => "number"
  | VStr _ => "string"
  | VArr _ => "object"
  | VObj _ => "object"
  end.

(** [ToBoolean], the truthiness used by [!v] and [||]. *)
Definition to_boolean (v : value) : bool :=
  match v with
  | VUndefined | VNull => false
  | VBool b => b
  | VNum NaN => false
  | VNum (Infinity _) => true
  | VNum (Finite q) => negb (Z.eqb (Qnum (this q)) 0)
  | VStr s => negb (String.eqb s "")
  | VArr _ | VObj _ => true
  end.

(** The values [JSON.parse] can return: no [undefined] and no NaN (a
    number too large for a double reads as an infinity). *)
Fixpoint is_json_parsed (v : value) : bool :=
  match v with
  | VUndefined => false
  | VNum NaN => false
  | VArr items => forallb is_json_parsed items
  | VObj fields => forallb (λ kv, is_json_parsed kv.2) fields
  | _ => true
  end.

(** The JSON values, which [JSON.stringify] prints and [JSON.parse] reads
    back: no [undefined], and only finite numbers. *)
Fixpoint is_json (v : value) : bool :=
  match v with
  | VUndefined => false
  | VNum NaN | VNum (Infinity _) => false
  | VArr items => forallb is_json items
  | VObj fields => forallb (λ kv, is_json kv.2) fields
  | _ => true
  end.

(** [JSON.parse(JSON.stringify(v))], given on values rather than through
    the text in between: properties holding [undefined] are dropped,
    [undefined] array items and non-finite numbers become [null]; [None]
    when [JSON.stringify] returns [undefined]. *)
Fixpoint json_item (v : value) : value :=
  match v with
  | VUndefined => VNull
  | VNum NaN | VNum (Infinity _) => VNull
  | VArr items => VArr (map json_item items)
  | VObj fields =>
      VObj ((fix props (l : list (string * value)) : list (string * value) :=
               match l with
               | [] => []
               | (k, VUndefined) :: l' => props l'
               | (k, w) :: l' => (k, json_item w) :: props l'
               end) fields)
  | _ => v
  end.

Definition JSON_roundtrip (v : value) : option value :=
  match v with
  | VUndefined => None
  | _ => Some (json_item v)
  end.

(** ** Platform services used by the schemas and the route *)

Class Platform := {
  (** [new URL(s)] returns (true) or throws (false). *)
  URL_ok : string → bool;
  (** [JSON.parse(text)]: the message of the [SyntaxError], or the value. *)
  JSON_parse : string → string + value;
}.

(** ** Zod

    Parsing threads a context that collects issues and returns a status
    with a value.  Here [_parse] returns both: the issues it added, in
    order, and a [ParseReturn]. *)

Inductive ZodParsedType :=
| t_string | t_nan | t_number | t_boolean | t_undefined | t_null | t_array | t_object.

Definition getParsedType (data : value) : ZodParsedType :=
  match data with
  | VUndefined => t_undefined
  | VNull => t_null
  | VBool _ => t_boolean
  | VNum NaN => t_nan
  | VNum _ => t_number
  | VStr _ => t_string
  | VArr _ => t_array
  | VObj _ => t_object
  end.

Definition type_name (t : ZodParsedType) : string :=
  match t with
  | t_string => "string"
  | t_nan => "nan"
  | t_number => "number"
  | t_boolean => "boolean"
  | t_undefined => "undefined"
  | t_null => "null"
  | t_array => "array"
  | t_object => "object"
  end.

Inductive PathSegment := Key (k : string) | Index (i : nat).

Inductive ZodIssueCode := invalid_type | invalid_string | too_small | too_big.

Record ZodIssue := {
  code : ZodIssueCode;
  path : list PathSegment;
  message : string;
}.

(** The default error map for [invalid_type]. *)
Definition invalid_type_issue (ctx_path : list PathSegment) (expected : string)
    (data : value) : ZodIssue :=
  {| code := invalid_type;
     path := ctx_path;
     message :=
       match data with
       | VUndefined => "Required"
       | _ => "Expected " +:+ expected +:+ ", received " +:+ type_name (getParsedType data)
       end |}.

(** [{status: "aborted"}], [{status: "dirty", value}], [{status: "valid", value}]. *)
Inductive ParseReturn :=
| INVALID
| DIRTY (v : value)
| OK (v : value).

Inductive ZodStringCheck := check_url.

(** Bounds are integers, as every bound in this repository is. *)
Inductive ZodNumberCheck :=
| check_int
| check_min (bound : Z) (inclusive : bool)
| check_max (bound : Z) (inclusive : bool).

Unset Elimination Schemes.

Inductive ZodType :=
| ZodString (checks : list ZodStringCheck)
| ZodNumber (checks : list ZodNumberCheck)
| ZodArray (type : ZodType)
| ZodObject (shape : list (string * ZodType))
| ZodNullable (innerType : ZodType)
| ZodOptional (innerType : ZodType)
| ZodDefault (innerType : ZodType) (defaultValue : value).

Set Elimination Schemes.

Fixpoint ZodType_nested_ind (P : ZodType → Prop)
    (Hstring : ∀ checks, P (ZodString checks))
    (Hnumber : ∀ checks, P (ZodNumber checks))
    (Harray : ∀ type, P type → P (ZodArray type))
    (Hobject : ∀ shape, Forall (λ kt, P kt.2) shape → P (ZodObject shape))
    (Hnullable : ∀ inner, P inner → P (ZodNullable inner))
    (Hoptional : ∀ inner, P inner → P (ZodOptional inner))
    (Hdefault : ∀ inner d, P inner → P (ZodDefault inner d))
    (t : ZodType) {struct t} : P t :=
  let rec := ZodType_nested_ind P Hstring Hnumber Harray Hobject Hnullable Hoptional Hdefault in
  match t with
  | ZodString checks => Hstring checks
  | ZodNumber checks => Hnumber checks
  | ZodArray type => Harray type (rec type)
  | ZodObject shape =>
      Hobject shape
        ((fix all (l : list (string * ZodType)) : Forall (λ kt, P kt.2) l :=
            match l with
            | [] => @List.Forall_nil _ _
            | kt :: l' => @List.Forall_cons _ _ kt l' (rec kt.2) (all l')
            end) shape)
  | ZodNullable inner => Hnullable inner (rec inner)
  | ZodOptional inner => Hoptional inner (rec inner)
  | ZodDefault inner d => Hdefault inner d (rec inner)
  end.

(** The status object of a parse: valid until a check marks it dirty. *)
Definition finish (issues : list ZodIssue) (v : value) : ParseReturn :=
  match issues with
  | [] => OK v
  | _ => DIRTY v
  end.

Definition show_Z (n : Z) : string := NilZero.string_of_int (Z.to_int n).

Definition show_nat (n : nat) : string := NilZero.string_of_uint (Nat.to_uint n).

(** One check of [ZodNumber._parse]: the issue it adds, if any. *)
Definition number_check (ctx_path : list PathSegment) (n : number)
    (check : ZodNumberCheck) : option ZodIssue :=
  match check with
  | check_int =>
      if isInteger n then None
      else Some {| code := invalid_type; path := ctx_path;
                   message := "Expected integer, received float" |}
  | check_min bound inclusive =>
      let tooSmall :=
        if inclusive then number_lt n (number_of_Z bound)
        else number_le n (number_of_Z bound) in
      if tooSmall then
        Some {| code := too_small; path := ctx_path;
                message := "Number must be "
                  +:+ (if inclusive then "greater than or equal to " else "greater than ")
                  +:+ show_Z bound |}
      else None
  | check_max bound inclusive =>
      let tooBig :=
        if inclusive then number_gt n (number_of_Z bound)
        else number_ge n (number_of_Z bound) in
      if tooBig then
        Some {| code := too_big; path := ctx_path;
                message := "Number must be "
                  +:+ (if inclusive then "less than or equal to " else "less than ")
                  +:+ show_Z bound |}
      else None
  end.

(** [ParseStatus.mergeArray]: abort at the first aborted item, otherwise
    collect the values; dirty as soon as one item is dirty. *)
Fixpoint mergeArray (is_dirty : bool) (arrayValue : list value)
    (results : list ParseReturn) : ParseReturn :=
  match results with
  | [] => if is_dirty then DIRTY (VArr arrayValue) else OK (VArr arrayValue)
  | INVALID :: _ => INVALID
  | DIRTY v :: rest => mergeArray true (arrayValue ++ [v]) rest
  | OK v :: rest => mergeArray is_dirty (arrayValue ++ [v]) rest
  end.

(** The value of a result that is not aborted. *)
Definition result_value (r : ParseReturn) : value :=
  match r with
  | INVALID => VUndefined
  | DIRTY v | OK v => v
  end.

(** The assignment of [mergeObjectSync] for one pair: the key is written
    when its value is not [undefined] or the key was present in the input,
    never for ["__proto__"]. *)
Definition assign (key : string) (v : value) (alwaysSet : bool)
    (finalObject : list (string * value)) : list (string * value) :=
  if negb (String.eqb key "__proto__")
     && (negb (String.eqb (typeof v) "undefined") || alwaysSet)
  then set_field key v finalObject
  else finalObject.

(** [ParseStatus.mergeObjectSync] on [(key, value result, alwaysSet)]:
    abort at the first aborted pair, otherwise assign the values; dirty as
    soon as one value is dirty. *)
Fixpoint mergeObjectSync (is_dirty : bool) (finalObject : list (string * value))
    (pairs : list (string * ParseReturn * bool)) : ParseReturn :=
  match pairs with
  | [] => if is_dirty then DIRTY (VObj finalObject) else OK (VObj finalObject)
  | (key, r, alwaysSet) :: rest =>
      match r with
      | INVALID => INVALID
      | DIRTY v => mergeObjectSync true (assign key v alwaysSet finalObject) rest
      | OK v => mergeObjectSync is_dirty (assign key v alwaysSet finalObject) rest
      end
  end.

Section Zod.
Context `{Platform}.

(** One check of [ZodString._parse]. *)
Definition string_check (ctx_path : list PathSegment) (s : string)
    (check : ZodStringCheck) : option ZodIssue :=
  match check with
  | check_url =>
      if URL_ok s then None
      else Some {| code := invalid_string; path := ctx_path; message := "Invalid url" |}
  end.

(** [schema._parse(input)]: the issues added to the context, in order, and
    the result. *)
Fixpoint _parse (schema : ZodType) (ctx_path : list PathSegment) (data : value)
    {struct schema} : list ZodIssue * ParseReturn :=
  match schema with
  | ZodString checks =>
      match data with
      | VStr s =>
          let issues := omap (string_check ctx_path s) checks in
          (issues, finish issues data)
      | _ => ([invalid_type_issue ctx_path "string" data], INVALID)
      end
  | ZodNumber checks =>
      match data with
      | VNum (Finite _ as n) | VNum (Infinity _ as n) =>
          let issues := omap (number_check ctx_path n) checks in
          (issues, finish issues data)
      | _ => ([invalid_type_issue ctx_path "number" data], INVALID)
      end
  | ZodArray type =>
      match data with
      | VArr items =>
          let results :=
            imap (λ i item, _parse type (ctx_path ++ [Index i]) item) items in
          (concat (map fst results), mergeArray false [] (map snd results))
      | _ => ([invalid_type_issue ctx_path "array" data], INVALID)
      end
  | ZodObject shape =>
      match data with
      | VObj fields =>
          let pairs :=
            map (λ kt : string * ZodType,
                   let (key, keyValidator) := kt in
                   (key,
                    _parse keyValidator (ctx_path ++ [Key key]) (get_field fields key),
                    has_key fields key))
                shape in
          (concat (map (λ p, fst (snd (fst p))) pairs),
           mergeObjectSync false []
             (map (λ p, (fst (fst p), snd (snd (fst p)), snd p)) pairs))
      | _ => ([invalid_type_issue ctx_path "object" data], INVALID)
      end
  | ZodNullable innerType =>
      match data with
      | VNull => ([], OK VNull)
      | _ => _parse innerType ctx_path data
      end
  | ZodOptional innerType =>
      match data with
      | VUndefined => ([], OK VUndefined)
      | _ => _parse innerType ctx_path data
      end
  | ZodDefault innerType defaultValue =>
      _parse innerType ctx_path
        (match data with VUndefined => defaultValue | _ => data end)
  end.

(** [schema.safeParse(data)]: the parsed data, or the issues of the
    [ZodError]. *)
Definition safeParse (schema : ZodType) (data : value) : list ZodIssue + value :=
  let (issues, result) := _parse schema [] data in
  match result with
  | OK v => inr v
  | _ => inl issues
  end.

End Zod.

(** [new ZodError(issues).flatten()]: the messages of the issues, grouped
    by the first segment of their path; issues with an empty path are form
    errors. *)
Record FlattenedError := {
  formErrors : list string;
  fieldErrors : gmap string (list string);
}.

(** The property name a path segment denotes when used as an object key. *)
Definition segment_key (seg : PathSegment) : string :=
  match seg with
  | Key k => k
  | Index i => show_nat i
  end.

Definition flatten_step (acc : FlattenedError) (sub : ZodIssue) : FlattenedError :=
  match path sub with
  | seg :: _ =>
      let k := segment_key seg in
      {| formErrors := formErrors acc;
         fieldErrors :=
           <[k := default [] (fieldErrors acc !! k) ++ [message sub]]> (fieldErrors acc) |}
  | [] =>
      {| formErrors := formErrors acc ++ [message sub];
         fieldErrors := fieldErrors acc |}
  end.

Definition flatten (issues : list ZodIssue) : FlattenedError :=
  fold_left flatten_step issues {| formErrors := []; fieldErrors := ∅ |}.

(** The schema constructors and methods of the [z] namespace. *)
Module z.
Definition string : ZodType := ZodString [].
Definition number : ZodType := ZodNumber [].
Definition array (type : ZodType) : ZodType := ZodArray type.
Definition object (shape : list (String.string * ZodType)) : ZodType := ZodObject shape.
Definition nullable (schema : ZodType) : ZodType := ZodNullable schema.
Definition optional (schema : ZodType) : ZodType := ZodOptional schema.
Definition default (def : value) (schema : ZodType) : ZodType := ZodDefault schema def.
Definition url (schema : ZodType) : ZodType :=
  match schema with
  | ZodString checks => ZodString (checks ++ [check_url])
  | _ => schema
  end.
Definition addCheck (check : ZodNumberCheck) (schema : ZodType) : ZodType :=
  match schema with
  | ZodNumber checks => ZodNumber (checks ++ [check])
  | _ => schema
  end.
Definition int : ZodType → ZodType := addCheck check_int.
Definition min (bound : Z) : ZodType → ZodType := addCheck (check_min bound true).
Definition max (bound : Z) : ZodType → ZodType := addCheck (check_max bound true).
End z.

(** Method chaining: [schema |> z.nullable] is [schema.nullable()]. *)
Notation "schema |> method" := (method schema)
  (at level 45, left associativity, only parsing).

(** ** lib/schema.ts *)

Definition sourceZ : ZodType :=
  z.object [
    ("title", z.string |> z.nullable |> z.optional);
    ("url", z.string |> z.url)
  ].

Definition factCheckZ : ZodType :=
  z.object [
    ("productName", z.string |> z.nullable);
    ("company", z.string |> z.nullable);
    ("keyNumbers", z.array z.string |> z.default (VArr []));
    ("measurableFacts", z.array z.string |> z.default (VArr []));
    ("category", z.string |> z.nullable);
    ("briefContext", z.string |> z.nullable);
    ("truthScore", z.number |> z.int |> z.min 0 |> z.max 100 |> z.nullable);
    ("report", z.string);
    ("sources", z.array sourceZ |> z.default (VArr []))
  ].

(** The property names a schema declares, for an object schema. *)
Definition shape_of (schema : ZodType) : list (string * ZodType) :=
  match schema with
  | ZodObject shape => shape
  | _ => []
  end.

Definition keys_of (schema : ZodType) : list string := map fst (shape_of schema).


(** ** app/api/analyze/route.ts *)

(** What [client.responses.create] is called with. *)
Record CreateParams := {
  model : string;
  temperature : number;
  response_format : value;
  input : value;
  max_output_tokens : Z;
}.

(** The part of the client's response the route reads; [None] is an
    absent [output_text]. *)
Record Response := { output_text : option string }.

(** The external collaborators of one invocation: the configured model
    name of the hosting environment and the inference service, which
    returns a response or throws an error with the given [message]
    ([None] when the thrown value has none). *)
Class Service := {
  OPENAI_VISION_MODEL : option string;
  responses_create : CreateParams → option string + Response;
}.

(** The incoming request: [await req.json()] resolves to the parsed body
    or rejects with an error. *)
Record Request := { json : option string + value }.

(** A thrown value: a [ZodError], or anything else, by its [message]. *)
Inductive exn :=
| ZodError (issues : list ZodIssue)
| Error (msg : option string).

(** The bodies the route sends: [{ error: message }],
    [{ error: err.flatten() }], or the validated result. *)
Inductive ResponseBody :=
| ErrorMessage (error : string)
| ErrorFields (error : FlattenedError)
| Result (validated : value).

(** [NextResponse.json(body, { status })]. *)
Record NextResponse := { body : ResponseBody; status : nat }.

Definition NextResponse_json (b : ResponseBody) (st : nat) : NextResponse :=
  {| body := b; status := st |}.

(** Computations of the route: they may throw, and they may call the
    inference service; the calls made so far are threaded as a log. *)
Definition M (A : Type) : Type :=
  list CreateParams → list CreateParams * (exn + A).

#[export] Instance M_ret : MRet M := λ A a log, (log, inr a).

#[export] Instance M_bind : MBind M := λ A B f m log,
  match m log with
  | (log', inl e) => (log', inl e)
  | (log', inr a) => f a log'
  end.

Definition throw {A : Type} (e : exn) : M A := λ log, (log, inl e).

(** [try { body } catch (err) { handler(err) }]. *)
Definition try_catch {A : Type} (body : M A) (handler : exn → M A) : M A :=
  λ log,
    match body log with
    | (log', inl e) => handler e log'
    | r => r
    end.

(** A platform call that throws a plain error or returns. *)
Definition lift {A : Type} (r : option string + A) : M A :=
  match r with
  | inl msg => throw (Error msg)
  | inr a => mret a
  end.

(** [const { key } = v]: a [TypeError] on [null] and [undefined]. *)
Definition destructure (v : value) (key : string) : M value :=
  match v with
  | VUndefined | VNull =>
      throw (Error (Some ("Cannot destructure property '" +:+ key +:+ "' of '"
                          +:+ "(intermediate value)" +:+ "' as it is "
                          +:+ (match v with VNull => "null" | _ => "undefined" end)
                          +:+ ".")))
  | _ => mret (get v key)
  end.

(** [v.startsWith(prefix)] on a string. *)
Definition startsWith (v : value) (prefix : string) : bool :=
  match v with
  | VStr s => String.prefix prefix s
  | _ => false
  end.

(** [a || b] on an optional string: [b] when [a] is absent or empty. *)
Definition or_else (a : option string) (b : string) : string :=
  match a with
  | Some s => if String.eqb s "" then b else s
  | None => b
  end.

Definition instructions : string :=
  "You are LucidAd, an advertising claim fact-checker. Analyze the advertisement image and return concise, source-linked JSON per the schema. Steps: 1) Identify ad name/company; 2) Virtually enhance (brightness/contrast/sharpness), denoise, deskew (conceptually) and run OCR; 3) Focus on relevant ad area; 4) Extract text, isolate factual claims; 5) Briefly infer context; 6) Rephrase main claim(s) as fact-checkable statements; 7) Extract product, company, key numbers, measurable facts; 8) Categorize claim type; 9) Optionally map to date/region/model; 10) Verify claim(s); 11) Assign 0–100 truth probability; 12) ~2 sentence summary; 13) Provide 2–5 credible source links.".

Definition nullable_string : value := VObj [("type", VArr [VStr "string"; VStr "null"])].

Definition string_array : value :=
  VObj [("type", VStr "array"); ("items", VObj [("type", VStr "string")])].

Definition FactCheckSchemaForAPI : value :=
  VObj [
    ("name", VStr "fact_check_schema");
    ("schema", VObj [
      ("type", VStr "object");
      ("additionalProperties", VBool false);
      ("properties", VObj [
        ("productName", nullable_string);
        ("company", nullable_string);
        ("keyNumbers", string_array);
        ("measurableFacts", string_array);
        ("category", nullable_string);
        ("briefContext", nullable_string);
        ("truthScore", VObj [("type", VArr [VStr "integer"; VStr "null"]);
                             ("minimum", VNum (number_of_Z 0));
                             ("maximum", VNum (number_of_Z 100))]);
        ("report", VObj [("type", VStr "string")]);
        ("sources", VObj [
          ("type", VStr "array");
          ("items", VObj [
            ("type", VStr "object");
            ("additionalProperties", VBool false);
            ("properties", VObj [
              ("title", nullable_string);
              ("url", VObj [("type", VStr "string")])]);
            ("required", VArr [VStr "url"])])])]);
      ("required", VArr [
        VStr "productName"; VStr "company"; VStr "keyNumbers";
        VStr "measurableFacts"; VStr "category"; VStr "briefContext";
        VStr "truthScore"; VStr "report"; VStr "sources"])]);
    ("strict", VBool true)
  ].

Section Route.
Context `{Platform} `{Service}.

(** [schema.parse(data)]: the parsed data, or a thrown [ZodError]. *)
Definition parse (schema : ZodType) (data : value) : M value :=
  match safeParse schema data with
  | inr v => mret v
  | inl issues => throw (ZodError issues)
  end.

(** [await client.responses.create(params)]: one call to the service. *)
Definition create (params : CreateParams) : M Response :=
  λ log,
    match responses_create params with
    | inl msg => (log ++ [params], inl (Error msg))
    | inr r => (log ++ [params], inr r)
    end.

(** The parameters of the inference call for a given image. *)
Definition create_params (image : value) : CreateParams :=
  {| model := or_else OPENAI_VISION_MODEL "gpt-4o";
     temperature := Finite (Q2Qc (2 # 10));
     response_format :=
       VObj [("type", VStr "json_schema"); ("json_schema", FactCheckSchemaForAPI)];
     input :=
       VArr [VObj [
         ("role", VStr "user");
         ("content", VArr [
           VObj [("type", VStr "input_text"); ("text", VStr instructions)];
           VObj [("type", VStr "input_image"); ("image_url", image)]])]];
     max_output_tokens := 900 |}.

(** [JSON.parse(jsonText)], where an absent text reads as ["undefined"]. *)
Definition JSON_parse_text (jsonText : option string) : M value :=
  match JSON_parse (default "undefined" jsonText) with
  | inl msg => throw (Error (Some msg))
  | inr v => mret v
  end.

(** The handler.  The catch clause also logs the errors that are not
    [ZodError]s, which does not change the response. *)
Definition POST (req : Request) : M NextResponse :=
  try_catch
    (parsed_body ← lift (json req);
     image ← destructure parsed_body "image";
     if negb (to_boolean image)
        || negb (String.eqb (typeof image) "string")
        || negb (startsWith image "data:image")
     then
       mret (NextResponse_json
               (ErrorMessage
                  "Invalid image. Send a data URL (base64) captured from camera or upload.")
               400)
     else
       response ← create (create_params image);
       let jsonText := output_text response in
       parsed ← JSON_parse_text jsonText;
       validated ← parse factCheckZ parsed;
       mret (NextResponse_json (Result validated) 200))
    (λ err,
       match err with
       | ZodError issues =>
           mret (NextResponse_json (ErrorFields (flatten issues)) 422)
       | Error msg =>
           mret (NextResponse_json
                   (ErrorMessage (or_else msg "Unexpected server error")) 500)
       end).

End Route.


(** ** Auxiliary notions used to state the properties *)

(** The parse of one declared property of an object at [ctx_path]. *)
Definition field_parse `{Platform} (ctx_path : list PathSegment)
    (fields : list (string * value)) (kt : string * ZodType)
  : list ZodIssue * ParseReturn :=
  _parse kt.2 (ctx_path ++ [Key kt.1]) (get_field fields kt.1).

(** The object [mergeObjectSync] has built after a list of valid pairs. *)
Definition assigned (pairs : list (string * ParseReturn * bool))
    (finalObject : list (string * value)) : list (string * value) :=
  fold_left (λ acc p, assign p.1.1 (result_value p.1.2) p.2 acc) pairs finalObject.

Definition is_OK (r : ParseReturn) : Prop := ∃ v, r = OK v.

(** The own properties of an object. *)
Definition own_fields (v : value) : list (string * value) :=
  match v with
  | VObj fields => fields
  | _ => []
  end.

(** The own property names of an object. *)
Definition own_keys (v : value) : list string :=
  match v with
  | VObj fields => map fst fields
  | _ => []
  end.

(** Shapes are written as object literals, so a shape has each key once,
    and none is ["__proto__"] (which a literal does not store as a key). *)
Fixpoint distinct_keys (schema : ZodType) : bool :=
  match schema with
  | ZodString _ | ZodNumber _ => true
  | ZodArray type => distinct_keys type
  | ZodObject shape =>
      bool_decide (NoDup (map fst shape))
      && bool_decide ("__proto__" ∉ map fst shape)
      && forallb (λ kt, distinct_keys kt.2) shape
  | ZodNullable inner | ZodOptional inner => distinct_keys inner
  | ZodDefault inner _ => distinct_keys inner
  end.

(** Every number schema of the schema has the check [int()]. *)
Fixpoint integer_numbers (schema : ZodType) : bool :=
  match schema with
  | ZodString _ => true
  | ZodNumber checks =>
      existsb (λ c, match c with check_int => true | _ => false end) checks
  | ZodArray type => integer_numbers type
  | ZodObject shape => forallb (λ kt, integer_numbers kt.2) shape
  | ZodNullable inner | ZodOptional inner => integer_numbers inner
  | ZodDefault inner _ => integer_numbers inner
  end.

(** Every default value of the schema is a JSON value. *)
Fixpoint json_defaults (schema : ZodType) : bool :=
  match schema with
  | ZodString _ | ZodNumber _ => true
  | ZodArray type => json_defaults type
  | ZodObject shape => forallb (λ kt, json_defaults kt.2) shape
  | ZodNullable inner | ZodOptional inner => json_defaults inner
  | ZodDefault inner d => is_json d && json_defaults inner
  end.

(** A truth score as the data model has it: an integer from 0 to 100. *)
Definition is_score (v : value) : Prop :=
  ∃ n : Z, (0 ≤ n ≤ 100)%Z ∧ v = VNum (number_of_Z n).

(** The candidate without the properties named in [keys]. *)
Definition omit (keys : list string) (fields : list (string * value))
  : list (string * value) :=
  List.filter (λ kv, negb (existsb (String.eqb kv.1) keys)) fields.

(** The minimal result of the schema test ("allows nullables and defaults"). *)
Definition minimal : value :=
  VObj [
    ("productName", VNull);
    ("company", VNull);
    ("keyNumbers", VArr []);
    ("measurableFacts", VArr []);
    ("category", VNull);
    ("briefContext", VNull);
    ("truthScore", VNull);
    ("report", VStr "Insufficient information to verify.");
    ("sources", VArr [])
  ].

(** The minimal result with its [sources] property left out. *)
Definition minimal_without_sources : value :=
  VObj [
    ("productName", VNull);
    ("company", VNull);
    ("keyNumbers", VArr []);
    ("measurableFacts", VArr []);
    ("category", VNull);
    ("briefContext", VNull);
    ("truthScore", VNull);
    ("report", VStr "Insufficient information to verify.")
  ].

(** A platform to run the examples on: its URLs are the strings with an
    [http] or [https] scheme, and its [JSON.parse] reads the documents
    [{}] and [null] and rejects any other text. *)
Definition example_platform : Platform :=
  {| URL_ok := λ s, String.prefix "https://" s || String.prefix "http://" s;
     JSON_parse := λ text,
       if String.eqb text "{}" then inr (VObj [])
       else if String.eqb text "null" then inr VNull
       else inl "Unexpected token in JSON at position 0" |}.

(** A service for the examples: no model override, and the same reply to
    every call. *)
Definition example_service (reply : option string + Response) : Service :=
  {| OPENAI_VISION_MODEL := None;
     responses_create := λ _, reply |}.

(** The issue is reported at or below the property [k] of the input. *)
Definition at_key (k : string) (issue : ZodIssue) : bool :=
  match path issue with
  | seg :: _ => String.eqb (segment_key seg) k
  | [] => false
  end.

(** The response of the generic catch clause. *)
Definition internal_error (msg : option string) : NextResponse :=
  NextResponse_json (ErrorMessage (or_else msg "Unexpected server error")) 500.

(** The accepted response of the schema test ("accepts a valid response"). *)
Definition valid_response_fields : list (string * value) :=
  [ ("productName", VStr "TurboBattery X");
    ("company", VStr "PowerCorp");
    ("keyNumbers", VArr [VStr "3x longer"; VStr "5000mAh"]);
    ("measurableFacts",
     VArr [VStr "Battery capacity: 5000mAh"; VStr "Fast charge: 45W"]);
    ("category", VStr "tech spec");
    ("briefContext", VStr "Smartphone battery endurance claim.");
    ("truthScore", VNum (number_of_Z 72));
    ("report", VStr "Independent tests show above-average endurance.");
    ("sources",
     VArr [VObj [("title", VStr "PowerCorp specs");
                 ("url", VStr "https://example.com/specs")];
           VObj [("title", VStr "Lab review");
                 ("url", VStr "https://example.com/review")]]) ].

(** The rejected response of the schema test ("rejects out-of-range
    truthScore"). *)
Definition out_of_range_fields : list (string * value) :=
  [ ("productName", VStr "X");
    ("company", VStr "Y");
    ("keyNumbers", VArr []);
    ("measurableFacts", VArr []);
    ("category", VNull);
    ("briefContext", VNull);
    ("truthScore", VNum (number_of_Z 120));
    ("report", VStr "x");
    ("sources", VArr []) ].

(** Requests for the examples. *)
Definition filename_request : Request :=
  {| json := inr (VObj [("image", VStr "photo.png")]) |}.

Definition data_url_request : Request :=
  {| json := inr (VObj [("image", VStr "data:image/webp;base64,UklGRg==")]) |}.


(** ** lib/types.ts *)

Definition is_string (v : value) : bool :=
  match v with VStr _ => true | _ => false end.

(** [string | null]. *)
Definition string_or_null (v : value) : bool :=
  match v with VStr _ | VNull => true | _ => false end.

(** [number | null]. *)
Definition number_or_null (v : value) : bool :=
  match v with VNum _ | VNull => true | _ => false end.

(** [T[]] for the element type [T]. *)
Definition array_of (T : value → bool) (v : value) : bool :=
  match v with VArr items => forallb T items | _ => false end.

(** [type SourceLink = { title?: string | null; url: string }]. *)
Definition SourceLink (v : value) : bool :=
  match v with
  | VObj fields =>
      match get_field fields "title" with
      | VUndefined | VNull | VStr _ => true
      | _ => false
      end
      && is_string (get_field fields "url")
  | _ => false
  end.

(** [type FactCheckResult]. *)
Definition FactCheckResult (v : value) : bool :=
  match v with
  | VObj fields =>
      string_or_null (get_field fields "productName")
      && string_or_null (get_field fields "company")
      && array_of is_string (get_field fields "keyNumbers")
      && array_of is_string (get_field fields "measurableFacts")
      && string_or_null (get_field fields "category")
      && string_or_null (get_field fields "briefContext")
      && number_or_null (get_field fields "truthScore")
      && is_string (get_field fields "report")
      && array_of SourceLink (get_field fields "sources")
  | _ => false
  end.

(** ** The candidates the schemas accept, said directly *)

(** An integer from 0 to 100, decided on the canonical fraction. *)
Definition is_score_b (v : value) : bool :=
  match v with
  | VNum (Finite q) =>
      Pos.eqb (Qden (this q)) 1
      && Z.leb 0 (Qnum (this q)) && Z.leb (Qnum (this q)) 100
  | _ => false
  end.

Definition absent_or (T : value → bool) (v : value) : bool :=
  match v with VUndefined => true | _ => T v end.

Definition null_or (T : value → bool) (v : value) : bool :=
  match v with VNull => true | _ => T v end.

(** A source: an object whose [title] is absent, [null] or a string and
    whose [url] is a string the [URL] constructor accepts. *)
Definition valid_source `{Platform} (v : value) : bool :=
  match v with
  | VObj fields =>
      match get_field fields "title" with
      | VUndefined | VNull | VStr _ => true
      | _ => false
      end
      && match get_field fields "url" with
         | VStr u => URL_ok u
         | _ => false
         end
  | _ => false
  end.

(** A fact-check result: an object with the four nullable strings present,
    the two string arrays and the sources absent or well typed, the score
    [null] or an integer from 0 to 100, and a report. *)
Definition valid_candidate `{Platform} (c : value) : bool :=
  match c with
  | VObj fields =>
      string_or_null (get_field fields "productName")
      && string_or_null (get_field fields "company")
      && absent_or (array_of is_string) (get_field fields "keyNumbers")
      && absent_or (array_of is_string) (get_field fields "measurableFacts")
      && string_or_null (get_field fields "category")
      && string_or_null (get_field fields "briefContext")
      && null_or is_score_b (get_field fields "truthScore")
      && is_string (get_field fields "report")
      && absent_or (array_of valid_source) (get_field fields "sources")
  | _ => false
  end.

(** Schemas that return their input as it is: no object (which strips) and
    no default (which fills in). *)
Fixpoint plain (schema : ZodType) : bool :=
  match schema with
  | ZodString _ | ZodNumber _ => true
  | ZodArray type => plain type
  | ZodObject _ => false
  | ZodNullable inner | ZodOptional inner => plain inner
  | ZodDefault _ _ => false
  end.

(** [.default([])]: the empty array in place of an absent value. *)
Definition default_empty (v : value) : value :=
  match v with VUndefined => VArr [] | _ => v end.

(** What is left of a source: its [title], when it has the property, and
    its [url]. *)
Definition strip_source (v : value) : value :=
  match v with
  | VObj fields =>
      VObj (match assoc "title" fields with
            | Some t => [("title", t)]
            | None => []
            end ++ [("url", get_field fields "url")])
  | _ => v
  end.

Definition strip_sources (v : value) : value :=
  match default_empty v with
  | VArr items => VArr (map strip_source items)
  | w => w
  end.

(** What is left of a candidate: the nine properties of the schema, in the
    order of the schema, the absent arrays filled in and the sources
    stripped. *)
Definition validated (c : value) : value :=
  VObj [
    ("productName", get c "productName");
    ("company", get c "company");
    ("keyNumbers", default_empty (get c "keyNumbers"));
    ("measurableFacts", default_empty (get c "measurableFacts"));
    ("category", get c "category");
    ("briefContext", get c "briefContext");
    ("truthScore", get c "truthScore");
    ("report", get c "report");
    ("sources", strip_sources (get c "sources"))
  ].

(** The image a request carries, when the handler gets as far as the
    inference call: the body was read, is not [null], and its [image] is a
    string that starts with [data:image]. *)
Definition request_image (req : Request) : option string :=
  match json req with
  | inl _ => None
  | inr VNull | inr VUndefined => None
  | inr parsed_body =>
      match get parsed_body "image" with
      | VStr s => if String.prefix "data:image" s then Some s else None
      | _ => None
      end
  end.

(** ** app/page.tsx *)

(** *** ResultCard *)

(** [Math.min(a, b)] and [Math.max(a, b)]: NaN when an argument is NaN. *)
Definition Math_min (a b : number) : number :=
  match number_compare a b with
  | None => NaN
  | Some Gt => b
  | Some _ => a
  end.

Definition Math_max (a b : number) : number :=
  match number_compare a b with
  | None => NaN
  | Some Lt => b
  | Some _ => a
  end.

(** [Math.max(0, Math.min(100, result.truthScore ?? 0))], for a
    [truthScore] of its declared type [number | null] ([None] is [null]). *)
Definition score (truthScore : option number) : number :=
  Math_max (number_of_Z 0)
    (Math_min (number_of_Z 100) (default (number_of_Z 0) truthScore)).

(** [score >= 80 ? "bg-emerald-500" : score >= 50 ? "bg-amber-500" : "bg-rose-500"]. *)
Definition scoreColor (s : number) : string :=
  if number_ge s (number_of_Z 80) then "bg-emerald-500"
  else if number_ge s (number_of_Z 50) then "bg-amber-500"
  else "bg-rose-500".

(** [result.truthScore] of a result of type [FactCheckResult]. *)
Definition truthScore_of (result : value) : option number :=
  match get result "truthScore" with
  | VNum n => Some n
  | _ => None
  end.

(** *** Page *)

(** The state of the page, one field for each [useState]. *)
Record PageState := {
  streaming : bool;
  imageDataUrl : option string;
  result : option value;
  loading : bool;
  error : option string;
  isDesktop : bool;
  cameraSupported : bool;
}.

Definition setImageDataUrl (v : option string) (s : PageState) : PageState :=
  {| streaming := streaming s; imageDataUrl := v; result := result s;
     loading := loading s; error := error s; isDesktop := isDesktop s;
     cameraSupported := cameraSupported s |}.

Definition setResult (v : option value) (s : PageState) : PageState :=
  {| streaming := streaming s; imageDataUrl := imageDataUrl s; result := v;
     loading := loading s; error := error s; isDesktop := isDesktop s;
     cameraSupported := cameraSupported s |}.

Definition setLoading (v : bool) (s : PageState) : PageState :=
  {| streaming := streaming s; imageDataUrl := imageDataUrl s; result := result s;
     loading := v; error := error s; isDesktop := isDesktop s;
     cameraSupported := cameraSupported s |}.

Definition setError (v : option string) (s : PageState) : PageState :=
  {| streaming := streaming s; imageDataUrl := imageDataUrl s; result := result s;
     loading := loading s; error := v; isDesktop := isDesktop s;
     cameraSupported := cameraSupported s |}.

(** What the handlers read of a [File]. *)
Record File := { size : Z; type : string }.

Definition maxSize : Z := 10 * 1024 * 1024.

(** [onFileUpload], for the first file of the input ([None] when there is
    none): the next state and the file handed to [readAsDataURL], if
    any. *)
Definition onFileUpload (file : option File) (s : PageState)
  : PageState * option File :=
  match file with
  | None => (s, None)
  | Some f =>
      if Z.ltb maxSize (size f) then
        (setError (Some "File too large. Please use an image under 10MB.") s, None)
      else if negb (String.prefix "image/" (type f)) then
        (setError (Some "Please select a valid image file.") s, None)
      else (setError None (setResult None s), Some f)
  end.

(** [handleDrop], for the first file of the drop. *)
Definition handleDrop (file : option File) (s : PageState)
  : PageState * option File :=
  match file with
  | Some f =>
      if String.prefix "image/" (type f)
      then (setError None (setResult None s), Some f)
      else (s, None)
  | None => (s, None)
  end.

(** [reader.onload], with the data URL the reader has produced. *)
Definition reader_onload (reader_result : string) (s : PageState) : PageState :=
  setImageDataUrl (Some reader_result) s.

Definition resetAll (s : PageState) : PageState :=
  setError None (setResult None (setImageDataUrl None s)).

(** What [fetch] settles to: a rejection, or a response with its status
    and the outcome of [res.json()]. *)
Inductive FetchResult :=
| fetch_rejected (msg : option string)
| fetch_response (st : nat) (res_json : option string + value).

(** [res.ok]. *)
Definition res_ok (st : nat) : bool := Nat.leb 200 st && Nat.leb st 299.

(** [String(v)] where it is defined: an object that has a property
    [toString] of its own cannot be converted ([None]), since no JSON
    value is a function. *)
Class Numerals := {
  (** [Number.prototype.toString]. *)
  Number_toString : number → string;
}.

Fixpoint join (separator : string) (items : list string) : string :=
  match items with
  | [] => ""
  | [x] => x
  | x :: rest => x +:+ separator +:+ join separator rest
  end.

Fixpoint ToString `{Numerals} (v : value) : option string :=
  match v with
  | VUndefined => Some "undefined"
  | VNull => Some "null"
  | VBool true => Some "true"
  | VBool false => Some "false"
  | VNum n => Some (Number_toString n)
  | VStr s => Some s
  | VArr items =>
      join "," <$>
        mapM (λ item, match item with
                      | VUndefined | VNull => Some ""
                      | _ => ToString item
                      end) items
  | VObj fields => if has_key fields "toString" then None else Some "[object Object]"
  end.

Section Page.
Context `{Numerals}.

(** The [message] of [new Error(v)] as the catch clause of [analyze] sees
    it: when [v] cannot be converted, the error caught is the
    [TypeError] of the conversion. *)
Definition Error_message (v : value) : string :=
  default "Cannot convert object to primitive value" (ToString v).

(** [v.error]: a [TypeError] for [null] and [undefined]. *)
Definition get_error (v : value) : string + value :=
  match v with
  | VNull => inl "Cannot read properties of null (reading 'error')"
  | VUndefined => inl "Cannot read properties of undefined (reading 'error')"
  | _ => inr (get v "error")
  end.

(** The body of the [try] of [analyze] from the settled [fetch] on: the
    data passed to [setResult], or the [message] of what is thrown. *)
Definition analyze_try (f : FetchResult) : option string + value :=
  match f with
  | fetch_rejected msg => inl msg
  | fetch_response st res_json =>
      if negb (res_ok st) then
        let errorData := match res_json with inl _ => VObj [] | inr v => v end in
        match get_error errorData with
        | inl msg => inl (Some msg)
        | inr e =>
            inl (Some (Error_message
                         (if to_boolean e then e
                          else VStr ("Server returned " +:+ show_nat st))))
        end
      else
        match res_json with
        | inl msg => inl msg
        | inr data =>
            match get_error data with
            | inl msg => inl (Some msg)
            | inr e => if to_boolean e then inl (Some (Error_message e)) else inr data
            end
        end
  end.

(** [analyze] up to the [fetch]: nothing without an image; otherwise the
    state with the three updates and the body sent to [/api/analyze]. *)
Definition analyze_start (s : PageState) : PageState * option value :=
  match imageDataUrl s with
  | None => (s, None)
  | Some url =>
      if String.eqb url "" then (s, None)
      else (setResult None (setError None (setLoading true s)),
            Some (VObj [("image", VStr url)]))
  end.

(** [analyze] from the settled [fetch] on, [finally] included. *)
Definition analyze_settle (f : FetchResult) (s : PageState) : PageState :=
  setLoading false
    match analyze_try f with
    | inr data => setResult (Some data) s
    | inl msg =>
        setError
          (Some (or_else msg "Something went wrong while analyzing the advertisement."))
          s
    end.

End Page.

(** What the keyboard shortcut does on a key. *)
Inductive KeyAction := run_analyze | run_resetAll | no_action.

Definition handleKeyPress (key : string) (s : PageState) : KeyAction :=
  if String.eqb key "Enter"
     && match imageDataUrl s with
        | Some url => negb (String.eqb url "")
        | None => false
        end
     && negb (loading s)
  then run_analyze
  else if String.eqb key "Escape" then run_resetAll
  else no_action.

(** *** Between the page and the route *)

(** The request [fetch] sends for a body, as the route reads it. *)
Definition request_of (sent : value) : Request := {| json := inr (json_item sent) |}.

(** The JSON document of a response body. *)
Definition body_value (b : ResponseBody) : value :=
  match b with
  | ErrorMessage m => VObj [("error", VStr m)]
  | ErrorFields f =>
      VObj [("error",
             VObj [("formErrors", VArr (map VStr (formErrors f)));
                   ("fieldErrors",
                    VObj (map (λ kv : string * list string, (kv.1, VArr (map VStr kv.2)))
                            (map_to_list (fieldErrors f))))])]
  | Result v => v
  end.

(** What [fetch] settles to when the route has answered. *)
Definition received (r : NextResponse) : FetchResult :=
  fetch_response (status r) (inr (json_item (body_value (body r)))).

(** [disabled={!imageDataUrl || loading}] of the Analyze button. *)
Definition analyze_disabled (s : PageState) : bool :=
  match imageDataUrl s with
  | Some url => String.eqb url ""
  | None => true
  end
  || loading s.

(** *** Values for the examples *)

(** The state of the page when it is first rendered. *)
Definition initial : PageState :=
  {| streaming := false; imageDataUrl := None; result := None; loading := false;
     error := None; isDesktop := false; cameraSupported := true |}.

(** The page with a picture read from a file. *)
Definition with_picture : PageState :=
  reader_onload "data:image/png;base64,iVBORw0KGgo=" initial.

(** A small picture and a large one. *)
Definition small_png : File := {| size := 2048; type := "image/png" |}.

Definition large_jpeg : File := {| size := 12 * 1024 * 1024; type := "image/jpeg" |}.

(** Numerals for the examples: the integers in decimal; the other finite
    numbers, which no example prints, as their fraction. *)
Definition example_numerals : Numerals :=
  {| Number_toString := λ n,
       match n with
       | NaN => "NaN"
       | Infinity true => "-Infinity"
       | Infinity false => "Infinity"
       | Finite q =>
           let num := Qnum (this q) in
           let den := Qden (this q) in
           (if Z.ltb num 0 then "-" else "")
           +:+ show_nat (Z.to_nat (Z.abs num))
           +:+ (if Pos.eqb den 1 then "" else "/" +:+ show_nat (Pos.to_nat den))
       end |}.

(** The platform of the examples with one more document: its [JSON.parse]
    reads [text] as [parsed]. *)
Definition example_platform_reading (text : string) (parsed : value) : Platform :=
  {| URL_ok := @URL_ok example_platform;
     JSON_parse := λ t,
       if String.eqb t text then inr parsed else @JSON_parse example_platform t |}.
(** * Properties *)

(** ** Property lists *)

Lemma eqb_string_true (a b : string) : String.eqb a b = true ↔ a = b.
Proof. apply String.eqb_eq. Qed.

Lemma eqb_string_false (a b : string) : String.eqb a b = false ↔ a ≠ b.
Proof. apply String.eqb_neq. Qed.

Lemma typeof_undefined (v : value) :
  String.eqb (typeof v) "undefined" = true ↔ v = VUndefined.
Proof. destruct v; simpl; split; intros Hv; try reflexivity; discriminate Hv. Qed.

Lemma assoc_None {A : Type} (key : string) (fields : list (string * A)) :
  assoc key fields = None ↔ key ∉ map fst fields.
Proof.
  induction fields as [|[k v] rest IH]; simpl.
  - split; [intros _; apply not_elem_of_nil | done].
  - destruct (String.eqb key k) eqn:E.
    + apply eqb_string_true in E as ->. split; [done|].
      intros Hn. exfalso. apply Hn. left.
    + apply eqb_string_false in E. rewrite IH, not_elem_of_cons. tauto.
Qed.

Lemma assoc_elem_of {A : Type} (key : string) (v : A) (fields : list (string * A)) :
  assoc key fields = Some v → (key, v) ∈ fields.
Proof.
  induction fields as [|[k w] rest IH]; simpl; [done|].
  destruct (String.eqb key k) eqn:E.
  - apply eqb_string_true in E as ->. intros [= ->]. left.
  - intros Hr. right. auto.
Qed.

Lemma assoc_NoDup {A : Type} (key : string) (v : A) (fields : list (string * A)) :
  NoDup (map fst fields) → (key, v) ∈ fields → assoc key fields = Some v.
Proof.
  induction fields as [|[k w] rest IH]; simpl; intros Hnd Hin.
  - by apply elem_of_nil in Hin.
  - apply NoDup_cons in Hnd as [Hk Hnd].
    apply elem_of_cons in Hin as [[= -> ->]|Hin].
    + by rewrite String.eqb_refl.
    + destruct (String.eqb key k) eqn:E; [|auto].
      apply eqb_string_true in E as ->. exfalso. apply Hk.
      apply (list_elem_of_fmap_2 fst) in Hin. exact Hin.
Qed.

Lemma assoc_set_field_eq (key : string) (v : value) (fields : list (string * value)) :
  assoc key (set_field key v fields) = Some v.
Proof.
  induction fields as [|[k w] rest IH]; simpl.
  - by rewrite String.eqb_refl.
  - destruct (String.eqb key k) eqn:E; simpl; rewrite E; [done | exact IH].
Qed.

Lemma assoc_set_field_ne (key key' : string) (v : value) (fields : list (string * value)) :
  key ≠ key' → assoc key (set_field key' v fields) = assoc key fields.
Proof.
  intros Hne. induction fields as [|[k w] rest IH]; simpl.
  - apply eqb_string_false in Hne. by rewrite Hne.
  - destruct (String.eqb key' k) eqn:E; simpl.
    + apply eqb_string_true in E as ->.
      apply eqb_string_false in Hne. by rewrite Hne.
    + by rewrite IH.
Qed.

Lemma keys_set_field (key : string) (v : value) (fields : list (string * value)) :
  map fst (set_field key v fields) ⊆ key :: map fst fields.
Proof.
  induction fields as [|[k w] rest IH]; simpl.
  - done.
  - destruct (String.eqb key k); simpl.
    + intros x Hx. by right.
    + intros x Hx. apply elem_of_cons in Hx as [->|Hx].
      * right. left.
      * apply IH in Hx. apply elem_of_cons in Hx as [->|Hx]; [left | right; by right].
Qed.

(** ** Merging the results of the items of an array and of the properties
    of an object *)

Lemma mergeArray_dirty (acc : list value) (results : list ParseReturn) (out : value) :
  mergeArray true acc results ≠ OK out.
Proof.
  revert acc. induction results as [|[|v|v] rest IH]; simpl; intros acc; auto; discriminate.
Qed.

Lemma mergeArray_OK_inv (is_dirty : bool) (acc : list value)
    (results : list ParseReturn) (out : value) :
  mergeArray is_dirty acc results = OK out →
  is_dirty = false ∧ ∃ vs, results = map OK vs ∧ out = VArr (acc ++ vs).
Proof.
  revert is_dirty acc. induction results as [|[|v|v] rest IH]; simpl; intros d acc Hm.
  - destruct d; [discriminate|]. injection Hm as <-.
    split; [done|]. exists []. by rewrite app_nil_r.
  - discriminate.
  - by apply mergeArray_dirty in Hm.
  - apply IH in Hm as (-> & vs & -> & ->). split; [done|].
    exists (v :: vs). by rewrite <- app_assoc.
Qed.

Lemma mergeArray_OK (acc vs : list value) :
  mergeArray false acc (map OK vs) = OK (VArr (acc ++ vs)).
Proof.
  revert acc. induction vs as [|v vs IH]; simpl; intros acc.
  - by rewrite app_nil_r.
  - rewrite IH. by rewrite <- app_assoc.
Qed.

Lemma mergeArray_not_OK (is_dirty : bool) (acc : list value) (results : list ParseReturn) :
  (∀ out, mergeArray is_dirty acc results ≠ OK out) →
  is_dirty = true ∨ Exists (λ r, ¬ is_OK r) results.
Proof.
  revert is_dirty acc. induction results as [|[|v|v] rest IH]; simpl; intros d acc Hm.
  - destruct d; [by left|]. by destruct (Hm (VArr acc)).
  - right. left. intros [v Hv]. discriminate.
  - right. left. intros [w Hw]. discriminate.
  - destruct (IH _ _ Hm) as [->|Hex]; [by left|]. right. by right.
Qed.

Lemma mergeObjectSync_dirty (acc : list (string * value))
    (pairs : list (string * ParseReturn * bool)) (out : value) :
  mergeObjectSync true acc pairs ≠ OK out.
Proof.
  revert acc. induction pairs as [|[[k [|v|v]] a] rest IH]; simpl; intros acc;
    auto; discriminate.
Qed.

Lemma mergeObjectSync_OK_inv (is_dirty : bool) (acc : list (string * value))
    (pairs : list (string * ParseReturn * bool)) (out : value) :
  mergeObjectSync is_dirty acc pairs = OK out →
  is_dirty = false ∧ Forall (λ p, is_OK p.1.2) pairs ∧ out = VObj (assigned pairs acc).
Proof.
  revert is_dirty acc.
  induction pairs as [|[[k [|v|v]] a] rest IH]; simpl; intros d acc Hm.
  - destruct d; [discriminate|]. injection Hm as <-. by repeat split.
  - discriminate.
  - by apply mergeObjectSync_dirty in Hm.
  - apply IH in Hm as (-> & Hall & ->). split; [done|]. split; [|done].
    constructor; [by exists v | done].
Qed.

Lemma mergeObjectSync_OK (acc : list (string * value))
    (pairs : list (string * ParseReturn * bool)) :
  Forall (λ p, is_OK p.1.2) pairs →
  mergeObjectSync false acc pairs = OK (VObj (assigned pairs acc)).
Proof.
  intros Hall. revert acc.
  induction Hall as [|[[k r] a] rest Hr _ IH]; simpl; intros acc; [done|].
  destruct Hr as [v Hv]. simpl in Hv. subst r. apply IH.
Qed.

(** What [assigned] holds for a key: the value of the last pair that wrote
    it.  With distinct keys there is at most one. *)
Lemma assoc_assigned_other (key : string) (pairs : list (string * ParseReturn * bool))
    (acc : list (string * value)) :
  key ∉ map (λ p, p.1.1) pairs →
  assoc key (assigned pairs acc) = assoc key acc.
Proof.
  revert acc. induction pairs as [|[[k r] a] rest IH]; simpl; intros acc Hk; [done|].
  apply not_elem_of_cons in Hk as [Hne Hk].
  unfold assigned in *. simpl. rewrite IH by done.
  unfold assign. destruct (_ && _); [|done]. by apply assoc_set_field_ne.
Qed.

Lemma assoc_assigned (key : string) (r : ParseReturn) (a : bool)
    (pairs : list (string * ParseReturn * bool)) (acc : list (string * value)) :
  NoDup (map (λ p, p.1.1) pairs) →
  (key, r, a) ∈ pairs →
  key ≠ "__proto__" →
  assoc key (assigned pairs acc) =
    if negb (String.eqb (typeof (result_value r)) "undefined") || a
    then Some (result_value r) else assoc key acc.
Proof.
  revert acc. induction pairs as [|[[k r'] a'] rest IH]; simpl; intros acc Hnd Hin Hp.
  - by apply elem_of_nil in Hin.
  - apply NoDup_cons in Hnd as [Hk Hnd].
    apply elem_of_cons in Hin as [[= <- <- <-]|Hin].
    + unfold assigned. simpl. fold (assigned rest (assign key (result_value r) a acc)).
      rewrite assoc_assigned_other by done.
      unfold assign. apply eqb_string_false in Hp. rewrite Hp. simpl.
      destruct (_ || _); [apply assoc_set_field_eq | done].
    + unfold assigned. simpl. fold (assigned rest (assign k (result_value r') a' acc)).
      rewrite IH by done.
      destruct (_ || _); [done|].
      unfold assign. destruct (_ && _); [|done].
      apply assoc_set_field_ne. intros ->. apply Hk.
      apply (list_elem_of_fmap_2 (λ p, p.1.1)) in Hin. exact Hin.
Qed.

Lemma keys_assigned (pairs : list (string * ParseReturn * bool))
    (acc : list (string * value)) :
  map fst (assigned pairs acc) ⊆ map fst acc ++ map (λ p, p.1.1) pairs.
Proof.
  revert acc. induction pairs as [|[[k r] a] rest IH]; simpl; intros acc.
  - by rewrite app_nil_r.
  - unfold assigned. simpl. fold (assigned rest (assign k (result_value r) a acc)).
    intros x Hx. apply IH in Hx. apply elem_of_app in Hx as [Hx|Hx].
    + unfold assign in Hx. destruct (_ && _).
      * apply keys_set_field in Hx. apply elem_of_cons in Hx as [->|Hx].
        -- apply elem_of_app. right. left.
        -- apply elem_of_app. by left.
      * apply elem_of_app. by left.
    + apply elem_of_app. right. by right.
Qed.

(** ** The parse function *)

Section ZodFacts.
Context `{Platform}.

Lemma parse_object (shape : list (string * ZodType)) (p : list PathSegment)
    (fields : list (string * value)) :
  _parse (ZodObject shape) p (VObj fields) =
    (concat (map (λ kt, (field_parse p fields kt).1) shape),
     mergeObjectSync false []
       (map (λ kt, (kt.1, (field_parse p fields kt).2, has_key fields kt.1)) shape)).
Proof.
  simpl. rewrite !map_map. f_equal.
  - f_equal. apply map_ext. by intros [k t].
  - f_equal. apply map_ext. by intros [k t].
Qed.

Lemma parse_array (type : ZodType) (p : list PathSegment) (items : list value) :
  _parse (ZodArray type) p (VArr items) =
    (concat (map fst (imap (λ i item, _parse type (p ++ [Index i]) item) items)),
     mergeArray false []
       (map snd (imap (λ i item, _parse type (p ++ [Index i]) item) items))).
Proof. reflexivity. Qed.

Lemma finish_OK (issues : list ZodIssue) (data v : value) :
  finish issues data = OK v → issues = [] ∧ v = data.
Proof. destruct issues; simpl; [by intros [= ->] | discriminate]. Qed.

Lemma finish_not_OK (issues : list ZodIssue) (data : value) :
  ¬ is_OK (finish issues data) → issues ≠ [].
Proof. destruct issues; simpl; [|done]. intros Hn _. apply Hn. by exists data. Qed.

Lemma is_OK_dec (r : ParseReturn) : is_OK r ∨ ¬ is_OK r.
Proof.
  destruct r as [|v|v]; [right | right | left]; try (intros [w Hw]; discriminate).
  by exists v.
Qed.

Lemma concat_nil {A : Type} (ls : list (list A)) :
  Forall (λ l, l = []) ls → concat ls = [].
Proof. induction 1 as [|l ls -> _ IH]; simpl; [done | exact IH]. Qed.

Lemma concat_not_nil {A : Type} (ls : list (list A)) :
  Exists (λ l, l ≠ []) ls → concat ls ≠ [].
Proof.
  induction 1 as [l ls Hl | l ls _ IH]; simpl.
  - destruct l; [done | discriminate].
  - intros Happ. apply app_eq_nil in Happ as [_ Hc]. by apply IH.
Qed.

Lemma elem_of_concat {A : Type} (x : A) (ls : list (list A)) :
  x ∈ concat ls ↔ ∃ l, x ∈ l ∧ l ∈ ls.
Proof.
  rewrite list_elem_of_In, in_concat. split.
  - intros (l & Hl & Hx). exists l. by rewrite !list_elem_of_In.
  - intros (l & Hx & Hl). exists l. by rewrite <- !list_elem_of_In.
Qed.

(** A valid result comes with no issue. *)
Lemma parse_OK_no_issue (schema : ZodType) (p : list PathSegment) (data : value) :
  is_OK (_parse schema p data).2 → (_parse schema p data).1 = [].
Proof.
  revert p data.
  induction schema as [checks|checks|type IH|shape IH|inner IH|inner IH|inner d IH]
    using ZodType_nested_ind; intros p data [v Hv].
  - destruct data; simpl in *; try discriminate. by apply finish_OK in Hv as [-> _].
  - destruct data as [| | |[| |]| | |]; simpl in *; try discriminate;
      by apply finish_OK in Hv as [-> _].
  - destruct data as [| | | | |items|]; try discriminate.
    rewrite parse_array in *. simpl in *.
    apply mergeArray_OK_inv in Hv as (_ & vs & Hvs & _).
    apply concat_nil, Forall_forall. intros l Hl.
    apply list_elem_of_fmap in Hl as (r & -> & Hr).
    assert (r.2 ∈ map OK vs) as Hin by (rewrite <- Hvs; by apply list_elem_of_fmap_2).
    apply list_elem_of_fmap in Hin as (w & Hw & _).
    apply elem_of_lookup_imap in Hr as (i & item & -> & _).
    apply IH. by exists w.
  - destruct data as [| | | | | |fields]; try discriminate.
    rewrite parse_object in *. simpl in *.
    apply mergeObjectSync_OK_inv in Hv as (_ & Hall & _).
    apply concat_nil, Forall_forall. intros l Hl.
    apply list_elem_of_fmap in Hl as (kt & -> & Hkt).
    rewrite Forall_forall in IH. apply (IH kt Hkt).
    rewrite Forall_forall in Hall.
    apply (Hall (kt.1, (field_parse p fields kt).2, has_key fields kt.1)).
    by apply (list_elem_of_fmap_2
                (λ kt, (kt.1, (field_parse p fields kt).2, has_key fields kt.1))).
  - destruct data; simpl in *; try done; apply IH; by exists v.
  - destruct data; simpl in *; try done; apply IH; by exists v.
  - simpl in *. apply IH. by exists v.
Qed.

Lemma Forall_or_Exists {A : Type} (P : A → Prop) (l : list A) :
  (∀ x, P x ∨ ¬ P x) → Forall P l ∨ Exists (λ x, ¬ P x) l.
Proof.
  intros Hdec. induction l as [|x l [IH|IH]].
  - left. constructor.
  - destruct (Hdec x) as [Hx|Hx]; [left; by constructor | right; by left].
  - right. by right.
Qed.

(** A result that is not valid comes with at least one issue. *)
Lemma parse_not_OK_issue (schema : ZodType) (p : list PathSegment) (data : value) :
  ¬ is_OK (_parse schema p data).2 → (_parse schema p data).1 ≠ [].
Proof.
  revert p data.
  induction schema as [checks|checks|type IH|shape IH|inner IH|inner IH|inner d IH]
    using ZodType_nested_ind; intros p data Hn.
  - destruct data; simpl in *; try discriminate. by apply finish_not_OK in Hn.
  - destruct data as [| | |[| |]| | |]; simpl in *; try discriminate;
      by apply finish_not_OK in Hn.
  - destruct data as [| | | | |items|]; try discriminate.
    rewrite parse_array in *. simpl in *.
    destruct (mergeArray_not_OK false [] _ (λ out Hout, Hn (ex_intro _ out Hout)))
      as [?|Hex]; [discriminate|].
    apply concat_not_nil. apply Exists_exists in Hex as (r & Hr & Hnr).
    apply list_elem_of_fmap in Hr as (ir & -> & Hir).
    apply Exists_exists. exists ir.1. split; [by apply list_elem_of_fmap_2|].
    apply elem_of_lookup_imap in Hir as (i & item & -> & _). by apply IH.
  - destruct data as [| | | | | |fields]; try discriminate.
    rewrite parse_object in *. simpl in *.
    destruct (Forall_or_Exists (λ kt, is_OK (field_parse p fields kt).2) shape)
      as [Hall|Hex]; [intros kt; apply is_OK_dec| |].
    + exfalso. apply Hn. eexists. apply mergeObjectSync_OK.
      apply Forall_forall. intros pr Hpr.
      apply list_elem_of_fmap in Hpr as (kt & -> & Hkt).
      rewrite Forall_forall in Hall. by apply Hall.
    + apply concat_not_nil. apply Exists_exists in Hex as (kt & Hkt & Hnk).
      apply Exists_exists. exists (field_parse p fields kt).1.
      split; [by apply (list_elem_of_fmap_2 (λ kt, (field_parse p fields kt).1))|].
      rewrite Forall_forall in IH. by apply (IH kt Hkt).
  - destruct data; simpl in *; try (by apply IH).
    exfalso. apply Hn. by eexists.
  - destruct data; simpl in *; try (by apply IH).
    exfalso. apply Hn. by eexists.
  - simpl in *. by apply IH.
Qed.


(** Only [undefined] parses to [undefined]. *)
Lemma parse_undefined_inv (schema : ZodType) (p : list PathSegment) (data : value) :
  (_parse schema p data).2 = OK VUndefined → data = VUndefined.
Proof.
  revert p data.
  induction schema as [checks|checks|type IH|shape IH|inner IH|inner IH|inner d IH]
    using ZodType_nested_ind; intros p data Hv.
  - destruct data; simpl in *; try discriminate. by apply finish_OK in Hv as [_ ?].
  - destruct data as [| | |[| |]| | |]; simpl in *; try discriminate;
      by apply finish_OK in Hv as [_ ?].
  - destruct data as [| | | | |items|]; try discriminate.
    rewrite parse_array in Hv. simpl in Hv.
    by apply mergeArray_OK_inv in Hv as (_ & vs & _ & ?).
  - destruct data as [| | | | | |fields]; try discriminate.
    rewrite parse_object in Hv. simpl in Hv.
    by apply mergeObjectSync_OK_inv in Hv as (_ & _ & ?).
  - destruct data; simpl in *; try discriminate; by eapply IH.
  - destruct data; simpl in *; try done; by eapply IH.
  - destruct data; simpl in *; try done; by eapply IH.
Qed.

(** *** Objects, property by property *)

(** An object is accepted exactly when each declared property is. *)
Lemma object_accepted_iff (shape : list (string * ZodType)) (p : list PathSegment)
    (fields : list (string * value)) :
  is_OK (_parse (ZodObject shape) p (VObj fields)).2 ↔
  Forall (λ kt, is_OK (field_parse p fields kt).2) shape.
Proof.
  rewrite parse_object. simpl. split.
  - intros [out Hout]. apply mergeObjectSync_OK_inv in Hout as (_ & Hall & _).
    apply Forall_forall. intros kt Hkt. rewrite Forall_forall in Hall.
    apply (Hall (kt.1, (field_parse p fields kt).2, has_key fields kt.1)).
    by apply (list_elem_of_fmap_2
                (λ kt, (kt.1, (field_parse p fields kt).2, has_key fields kt.1))).
  - intros Hall. eexists. apply mergeObjectSync_OK.
    apply Forall_forall. intros pr Hpr.
    apply list_elem_of_fmap in Hpr as (kt & -> & Hkt).
    rewrite Forall_forall in Hall. by apply Hall.
Qed.

Lemma object_result (shape : list (string * ZodType)) (p : list PathSegment)
    (fields : list (string * value)) (r : value) :
  (_parse (ZodObject shape) p (VObj fields)).2 = OK r →
  r = VObj (assigned
              (map (λ kt, (kt.1, (field_parse p fields kt).2, has_key fields kt.1)) shape)
              []).
Proof.
  rewrite parse_object. simpl. intros Hr.
  by apply mergeObjectSync_OK_inv in Hr as (_ & _ & ->).
Qed.

(** The accepted object holds, for each declared key, the parsed value of
    that property; the key itself is present when that value is not
    [undefined] or the key was present in the input. *)
Lemma object_result_assoc (shape : list (string * ZodType)) (p : list PathSegment)
    (fields out : list (string * value)) (kt : string * ZodType) :
  (_parse (ZodObject shape) p (VObj fields)).2 = OK (VObj out) →
  NoDup (map fst shape) → "__proto__" ∉ map fst shape → kt ∈ shape →
  ∃ w, (field_parse p fields kt).2 = OK w
       ∧ assoc kt.1 out =
           if negb (String.eqb (typeof w) "undefined") || has_key fields kt.1
           then Some w else None.
Proof.
  intros Hr Hnd Hproto Hkt.
  assert (is_OK (field_parse p fields kt).2) as [w Hw].
  { assert (is_OK (_parse (ZodObject shape) p (VObj fields)).2) as Hok by (by eexists).
    apply object_accepted_iff in Hok. rewrite Forall_forall in Hok. by apply Hok. }
  exists w. split; [done|].
  apply object_result in Hr. injection Hr as ->.
  rewrite (assoc_assigned kt.1 (OK w) (has_key fields kt.1)); [done| | |].
  - by rewrite map_map.
  - rewrite <- Hw.
    by apply (list_elem_of_fmap_2
                (λ kt, (kt.1, (field_parse p fields kt).2, has_key fields kt.1))).
  - intros Heq. apply Hproto. rewrite <- Heq. by apply list_elem_of_fmap_2.
Qed.

Lemma object_result_field (shape : list (string * ZodType)) (p : list PathSegment)
    (fields : list (string * value)) (r : value) (kt : string * ZodType) :
  (_parse (ZodObject shape) p (VObj fields)).2 = OK r →
  NoDup (map fst shape) → "__proto__" ∉ map fst shape → kt ∈ shape →
  (field_parse p fields kt).2 = OK (get r kt.1).
Proof.
  intros Hr Hnd Hproto Hkt.
  pose proof (object_result _ _ _ _ Hr) as Hout.
  destruct r as [| | | | | |out]; try discriminate.
  destruct (object_result_assoc _ _ _ _ kt Hr Hnd Hproto Hkt) as (w & Hw & Hassoc).
  rewrite Hw. f_equal. simpl. unfold get_field. rewrite Hassoc.
  destruct (String.eqb (typeof w) "undefined") eqn:E; simpl.
  - apply typeof_undefined in E as ->. by destruct (has_key fields kt.1).
  - done.
Qed.

(** The accepted object has no key outside the shape. *)
Lemma object_result_keys (shape : list (string * ZodType)) (p : list PathSegment)
    (fields : list (string * value)) (r : value) :
  (_parse (ZodObject shape) p (VObj fields)).2 = OK r →
  own_keys r ⊆ map fst shape.
Proof.
  intros Hr. apply object_result in Hr as ->. simpl.
  intros k Hk. apply keys_assigned in Hk. simpl in Hk.
  by rewrite map_map in Hk.
Qed.

(** The parse of an object reads its input only at the declared keys. *)
Lemma parse_object_ext (shape : list (string * ZodType)) (p : list PathSegment)
    (fields fields' : list (string * value)) :
  (∀ k, k ∈ map fst shape → assoc k fields' = assoc k fields) →
  _parse (ZodObject shape) p (VObj fields') = _parse (ZodObject shape) p (VObj fields).
Proof.
  intros Hagree. rewrite !parse_object.
  assert (∀ kt, kt ∈ shape →
            field_parse p fields' kt = field_parse p fields kt
            ∧ has_key fields' kt.1 = has_key fields kt.1) as Hsame.
  { intros kt Hkt. unfold field_parse, get_field, has_key.
    rewrite Hagree; [done|]. by apply list_elem_of_fmap_2. }
  f_equal.
  - f_equal. apply map_ext_in. intros kt Hkt. apply list_elem_of_In in Hkt.
    by destruct (Hsame kt Hkt) as [-> _].
  - f_equal. apply map_ext_in. intros kt Hkt. apply list_elem_of_In in Hkt.
    by destruct (Hsame kt Hkt) as [-> ->].
Qed.

(** *** Parsing a parsed value again *)

Lemma assigned_ext {A : Type} (g g' : A → string * ParseReturn * bool) (l : list A)
    (acc : list (string * value)) :
  (∀ x acc', x ∈ l →
     assign (g' x).1.1 (result_value (g' x).1.2) (g' x).2 acc'
     = assign (g x).1.1 (result_value (g x).1.2) (g x).2 acc') →
  assigned (map g' l) acc = assigned (map g l) acc.
Proof.
  revert acc. induction l as [|x l IH]; intros acc Hstep; [done|].
  unfold assigned. simpl. rewrite Hstep by left.
  apply IH. intros y acc' Hy. apply Hstep. by right.
Qed.

Lemma distinct_keys_object (shape : list (string * ZodType)) :
  distinct_keys (ZodObject shape) = true →
  NoDup (map fst shape) ∧ ("__proto__" ∉ map fst shape)
  ∧ (∀ kt, kt ∈ shape → distinct_keys kt.2 = true).
Proof.
  simpl. rewrite !andb_true_iff, !bool_decide_eq_true, forallb_forall.
  intros [[Hnd Hp] Hall]. repeat split; [done..|].
  intros kt Hkt. apply Hall. by apply list_elem_of_In.
Qed.

(** Parsing is idempotent: a value a schema has accepted and returned is
    accepted again, unchanged. *)
Lemma parse_idempotent (schema : ZodType) (p : list PathSegment) (data v : value) :
  distinct_keys schema = true →
  (_parse schema p data).2 = OK v →
  _parse schema p v = ([], OK v).
Proof.
  revert p data v.
  induction schema as [checks|checks|type IH|shape IH|inner IH|inner IH|inner d IH]
    using ZodType_nested_ind; intros p data v Hwf Hv.
  - destruct data; simpl in Hv; try discriminate.
    apply finish_OK in Hv as [Hi ->]. simpl. by rewrite Hi.
  - destruct data as [| | |[| |]| | |]; simpl in Hv; try discriminate;
      apply finish_OK in Hv as [Hi ->]; simpl; by rewrite Hi.
  - destruct data as [| | | | |items|]; try discriminate.
    rewrite parse_array in Hv. simpl in Hv.
    apply mergeArray_OK_inv in Hv as (_ & vs & Hvs & ->). simpl app.
    rewrite parse_array.
    assert (imap (λ i item, _parse type (p ++ [Index i]) item) vs
            = map (λ w, ([], OK w)) vs) as ->.
    { rewrite <- (imap_const (λ w, ([], OK w)) vs). apply imap_ext.
      intros i w Hw. simpl.
      assert (map snd (imap (λ i item, _parse type (p ++ [Index i]) item) items) !! i
              = Some (OK w)) as Hi.
      { rewrite Hvs, list_lookup_fmap, Hw. done. }
      rewrite list_lookup_fmap, list_lookup_imap in Hi.
      destruct (items !! i) as [item|] eqn:Hitem; [|discriminate].
      simpl in Hi. injection Hi as Hi. by apply (IH _ item). }
    rewrite !map_map. simpl. f_equal.
    + apply concat_nil, Forall_forall. intros l Hl.
      by apply list_elem_of_fmap in Hl as (w & -> & _).
    + apply mergeArray_OK.
  - destruct data as [| | | | | |fields]; try discriminate.
    apply distinct_keys_object in Hwf as (Hnd & Hproto & Hwf).
    pose proof (object_result _ _ _ _ Hv) as Hout.
    destruct v as [| | | | | |out]; try discriminate. injection Hout as Hout.
    assert (∀ kt, kt ∈ shape →
              ∃ w, (field_parse p fields kt).2 = OK w
                   ∧ field_parse p out kt = ([], OK w)
                   ∧ has_key out kt.1
                     = negb (String.eqb (typeof w) "undefined") || has_key fields kt.1)
      as Hfield.
    { intros kt Hkt.
      destruct (object_result_assoc _ _ _ _ kt Hv Hnd Hproto Hkt) as (w & Hw & Hassoc).
      exists w. split; [done|]. split.
      - unfold field_parse. rewrite Forall_forall in IH.
        replace (get_field out kt.1) with w.
        + apply (IH kt Hkt _ _ _ (Hwf kt Hkt) Hw).
        + unfold get_field. rewrite Hassoc.
          destruct (String.eqb (typeof w) "undefined") eqn:E; simpl; [|done].
          apply typeof_undefined in E as ->. by destruct (has_key fields kt.1).
      - unfold has_key at 1. rewrite Hassoc. by destruct (_ || _). }
    rewrite parse_object. f_equal.
    + apply concat_nil, Forall_forall. intros l Hl.
      apply list_elem_of_fmap in Hl as (kt & -> & Hkt).
      by destruct (Hfield kt Hkt) as (w & _ & -> & _).
    + rewrite mergeObjectSync_OK.
      * f_equal. f_equal. etrans; [|symmetry; exact Hout]. apply assigned_ext.
        intros kt acc Hkt. simpl.
        destruct (Hfield kt Hkt) as (w & -> & -> & ->). simpl.
        unfold assign. f_equal. by destruct (String.eqb (typeof w) "undefined").
      * apply Forall_forall. intros pr Hpr.
        apply list_elem_of_fmap in Hpr as (kt & -> & Hkt).
        destruct (Hfield kt Hkt) as (w & _ & -> & _). by exists w.
  - destruct data; simpl in Hv; simpl in Hwf;
      destruct v; simpl; solve [done | by apply (IH _ _ _ Hwf Hv)].
  - destruct data; simpl in Hv; simpl in Hwf;
      destruct v; simpl; solve [done | by apply (IH _ _ _ Hwf Hv)].
  - simpl in Hv, Hwf. destruct v; simpl; try by apply (IH _ _ _ Hwf Hv).
    pose proof (parse_undefined_inv _ _ _ Hv) as Hd.
    destruct data; try discriminate. subst d.
    by apply (IH _ _ _ Hwf Hv).
Qed.

(** *** JSON in, JSON out *)

Lemma elem_of_set_field (k key : string) (w v : value) (fields : list (string * value)) :
  (k, w) ∈ set_field key v fields → (k, w) = (key, v) ∨ (k, w) ∈ fields.
Proof.
  induction fields as [|[k' w'] rest IH]; simpl.
  - intros Hin. apply list_elem_of_singleton in Hin. by left.
  - destruct (String.eqb key k') eqn:E.
    + apply eqb_string_true in E as ->. intros Hin.
      apply elem_of_cons in Hin as [?|?]; [by left | right; by right].
    + intros Hin. apply elem_of_cons in Hin as [->|Hin]; [right; left|].
      destruct (IH Hin) as [?|?]; [by left | right; by right].
Qed.

Lemma elem_of_assigned (k : string) (w : value)
    (pairs : list (string * ParseReturn * bool)) (acc : list (string * value)) :
  (k, w) ∈ assigned pairs acc →
  (k, w) ∈ acc
  ∨ ∃ r a, (k, r, a) ∈ pairs ∧ w = result_value r
           ∧ negb (String.eqb (typeof w) "undefined") || a = true.
Proof.
  revert acc. induction pairs as [|[[k' r'] a'] rest IH]; intros acc Hin; [by left|].
  unfold assigned in Hin. simpl in Hin.
  apply IH in Hin as [Hin|(r & a & Hin & Hw & Hc)].
  - unfold assign in Hin.
    destruct (negb (String.eqb k' "__proto__")); simpl in Hin; [|by left].
    destruct (negb (String.eqb (typeof (result_value r')) "undefined") || a') eqn:E;
      [|by left].
    apply elem_of_set_field in Hin as [[= -> ->]|Hin]; [|by left].
    right. exists r', a'. split; [left | done].
  - right. exists r, a. split; [by right | done].
Qed.

Lemma is_json_parsed_assoc (key : string) (x : value) (fields : list (string * value)) :
  forallb (λ kv, is_json_parsed kv.2) fields = true → assoc key fields = Some x →
  is_json_parsed x = true.
Proof.
  rewrite forallb_forall. intros Hall Hx. apply assoc_elem_of in Hx.
  apply list_elem_of_In in Hx. apply (Hall _ Hx).
Qed.

Lemma is_json_is_parsed (v : value) : is_json v = true → is_json_parsed v = true.
Proof.
  induction v as [| | | | |items IH|fields IH] using value_nested_ind;
    simpl; intros Hj; try done.
  - by destruct n.
  - induction IH as [|x l Hx _ IHl]; simpl in *; [done|].
    apply andb_true_iff in Hj as [Hjx Hjl]. by rewrite Hx, IHl.
  - induction IH as [|[k x] l Hx _ IHl]; simpl in *; [done|].
    apply andb_true_iff in Hj as [Hjx Hjl]. by rewrite Hx, IHl.
Qed.

Lemma omap_nil {A B : Type} (f : A → option B) (l : list A) (x : A) :
  omap f l = [] → x ∈ l → f x = None.
Proof.
  intros Hnil Hx. destruct (f x) as [y|] eqn:Hfx; [|done].
  assert (y ∈ omap f l) as Hy by (apply list_elem_of_omap; eauto).
  rewrite Hnil in Hy. by apply elem_of_nil in Hy.
Qed.

(** A number that passes [int()] is finite. *)
Lemma int_check_json (checks : list ZodNumberCheck) (p : list PathSegment)
    (n : number) :
  existsb (λ c, match c with check_int => true | _ => false end) checks = true →
  omap (number_check p n) checks = [] →
  is_json (VNum n) = true.
Proof.
  intros Hint Hnil. apply existsb_exists in Hint as (c & Hc & Hci).
  destruct c; try discriminate. apply list_elem_of_In in Hc.
  pose proof (omap_nil _ _ _ Hnil Hc) as Hcheck. simpl in Hcheck.
  by destruct n.
Qed.

(** A schema whose defaults are JSON values and whose numbers are integers
    maps a value read by [JSON.parse], or an absent one, to a JSON value,
    or to [undefined]. *)
Lemma parse_json_or_undefined (schema : ZodType) (p : list PathSegment)
    (data v : value) :
  json_defaults schema = true →
  integer_numbers schema = true →
  data = VUndefined ∨ is_json_parsed data = true →
  (_parse schema p data).2 = OK v →
  v = VUndefined ∨ is_json v = true.
Proof.
  revert p data v.
  induction schema as [checks|checks|type IH|shape IH|inner IH|inner IH|inner d IH]
    using ZodType_nested_ind; intros p data v Hdef Hint Hdata Hv.
  - destruct data; simpl in Hv; try discriminate.
    apply finish_OK in Hv as [_ ->]. by right.
  - simpl in Hint.
    destruct data as [| | |[| |]| | |]; simpl in Hv; try discriminate;
      apply finish_OK in Hv as [Hnil ->]; right;
      by apply (int_check_json checks p).
  - destruct data as [| | | | |items|]; try discriminate.
    destruct Hdata as [?|Hjson]; [discriminate|]. simpl in Hjson, Hdef, Hint.
    rewrite parse_array in Hv. simpl in Hv.
    apply mergeArray_OK_inv in Hv as (_ & vs & Hvs & ->). right. simpl.
    apply forallb_forall. intros w Hw. apply list_elem_of_In in Hw.
    apply list_elem_of_lookup in Hw as [i Hw].
    assert (map snd (imap (λ i item, _parse type (p ++ [Index i]) item) items) !! i
            = Some (OK w)) as Hi.
    { rewrite Hvs, list_lookup_fmap, Hw. done. }
    rewrite list_lookup_fmap, list_lookup_imap in Hi.
    destruct (items !! i) as [item|] eqn:Hitem; [|discriminate].
    simpl in Hi. injection Hi as Hi.
    assert (is_json_parsed item = true) as Hitemj.
    { rewrite forallb_forall in Hjson. apply Hjson, list_elem_of_In.
      by apply list_elem_of_lookup_2 in Hitem. }
    destruct (IH _ _ _ Hdef Hint (or_intror Hitemj) Hi) as [->|?]; [|done].
    apply parse_undefined_inv in Hi. subst item. discriminate.
  - destruct data as [| | | | | |fields]; try discriminate.
    destruct Hdata as [?|Hjson]; [discriminate|]. simpl in Hjson, Hdef, Hint.
    pose proof (object_result _ _ _ _ Hv) as ->. right. simpl.
    apply forallb_forall. intros [k w] Hkw. apply list_elem_of_In in Hkw. simpl.
    apply elem_of_assigned in Hkw as [Hkw|(r & a & Hin & -> & Hc)].
    { by apply elem_of_nil in Hkw. }
    apply list_elem_of_fmap in Hin as (kt & [= -> -> ->] & Hkt).
    assert (is_OK (field_parse p fields kt).2) as [w Hw].
    { assert (is_OK (_parse (ZodObject shape) p (VObj fields)).2) as Hok by (by eexists).
      apply object_accepted_iff in Hok. rewrite Forall_forall in Hok. by apply Hok. }
    rewrite Hw in *. simpl in *.
    assert (json_defaults kt.2 = true) as Hdk.
    { rewrite forallb_forall in Hdef. apply (Hdef kt). by apply list_elem_of_In. }
    assert (integer_numbers kt.2 = true) as Hik.
    { rewrite forallb_forall in Hint. apply (Hint kt). by apply list_elem_of_In. }
    assert (get_field fields kt.1 = VUndefined
            ∨ is_json_parsed (get_field fields kt.1) = true) as Hget.
    { unfold get_field. destruct (assoc kt.1 fields) as [x|] eqn:Hx; [|by left].
      right. simpl. by apply (is_json_parsed_assoc kt.1 x fields). }
    rewrite Forall_forall in IH.
    destruct (IH kt Hkt _ _ _ Hdk Hik Hget Hw) as [->|?]; [|done].
    simpl in Hc. apply parse_undefined_inv in Hw.
    unfold has_key in Hc. unfold get_field in Hw.
    destruct (assoc kt.1 fields) as [x|] eqn:Hx; [|discriminate].
    simpl in Hw. subst x. by apply is_json_parsed_assoc in Hx.
  - simpl in Hdef, Hint. destruct data; simpl in Hv;
      try (by apply (IH _ _ _ Hdef Hint Hdata Hv)).
    injection Hv as <-. by right.
  - simpl in Hdef, Hint. destruct data; simpl in Hv;
      try (by apply (IH _ _ _ Hdef Hint Hdata Hv)).
    injection Hv as <-. by left.
  - simpl in Hdef, Hint. apply andb_true_iff in Hdef as [Hd Hdef]. simpl in Hv.
    destruct data; try (by apply (IH _ _ _ Hdef Hint Hdata Hv)).
    apply (IH _ _ _ Hdef Hint (or_intror (is_json_is_parsed _ Hd)) Hv).
Qed.

Lemma parse_json (schema : ZodType) (p : list PathSegment) (data v : value) :
  json_defaults schema = true → integer_numbers schema = true →
  is_json_parsed data = true →
  (_parse schema p data).2 = OK v → is_json v = true.
Proof.
  intros Hdef Hint Hdata Hv.
  destruct (parse_json_or_undefined _ _ _ _ Hdef Hint (or_intror Hdata) Hv) as [->|?];
    [|done].
  apply parse_undefined_inv in Hv. by subst data.
Qed.
End ZodFacts.

(** Serializing a JSON value and parsing the text gives the value back. *)
Lemma json_item_id (v : value) : is_json v = true → json_item v = v.
Proof.
  induction v as [| | | | |items IH|fields IH] using value_nested_ind;
    simpl; intros Hj; try done.
  - by destruct n.
  - f_equal. induction IH as [|x l Hx _ IHl]; simpl in *; [done|].
    apply andb_true_iff in Hj as [Hjx Hjl]. by rewrite Hx, IHl.
  - f_equal. induction IH as [|[k x] l Hx _ IHl]; simpl in *; [done|].
    apply andb_true_iff in Hj as [Hjx Hjl]. rewrite IHl by done.
    destruct x; try discriminate; by rewrite ?Hx.
Qed.

Lemma JSON_roundtrip_id (v : value) : is_json v = true → JSON_roundtrip v = Some v.
Proof.
  intros Hj. unfold JSON_roundtrip. rewrite json_item_id by done.
  by destruct v.
Qed.

(** ** The Result Schema Validator: [factCheckZ] *)

Section Validator.
Context `{Platform}.

Lemma safeParse_inr (schema : ZodType) (data v : value) :
  safeParse schema data = inr v ↔ (_parse schema [] data).2 = OK v.
Proof.
  unfold safeParse. destruct (_parse schema [] data) as [issues [|w|w]]; simpl;
    split; intros Heq; try discriminate; by injection Heq as ->.
Qed.

Lemma safeParse_inl (schema : ZodType) (data : value) :
  ¬ is_OK (_parse schema [] data).2 →
  safeParse schema data = inl (_parse schema [] data).1.
Proof.
  unfold safeParse. destruct (_parse schema [] data) as [issues [|w|w]]; simpl;
    intros Hn; try done. exfalso. apply Hn. by exists w.
Qed.

(** A candidate object with one property that does not parse is rejected,
    and the issues of that property are among the reported ones. *)
Lemma object_rejected (shape : list (string * ZodType))
    (fields : list (string * value)) (kt : string * ZodType) :
  kt ∈ shape → ¬ is_OK (field_parse [] fields kt).2 →
  ∃ issues, safeParse (ZodObject shape) (VObj fields) = inl issues
            ∧ ∀ issue, issue ∈ (field_parse [] fields kt).1 → issue ∈ issues.
Proof.
  intros Hkt Hn. eexists. split.
  - apply safeParse_inl. rewrite object_accepted_iff, Forall_forall.
    intros Hall. by apply Hn, Hall.
  - intros issue Hi. rewrite parse_object. simpl.
    apply elem_of_concat. exists (field_parse [] fields kt).1. split; [done|].
    by apply (list_elem_of_fmap_2 (λ kt, (field_parse [] fields kt).1)).
Qed.

Lemma factCheckZ_keys :
  NoDup (keys_of factCheckZ) ∧ "__proto__" ∉ keys_of factCheckZ.
Proof. split; apply (bool_decide_unpack _); by vm_compute. Qed.

Lemma this_number_of_Z (n : Z) : this (Q2Qc (inject_Z n)) = inject_Z n.
Proof. simpl. apply Qred_identity. simpl. apply Z.gcd_1_r. Qed.

Lemma number_of_Z_inj (a b : Z) : number_of_Z a = number_of_Z b → a = b.
Proof.
  intros Heq.
  apply (f_equal (λ x, match x with Finite q => Qnum (this q) | _ => 0%Z end)) in Heq.
  unfold number_of_Z in Heq. by rewrite !this_number_of_Z in Heq.
Qed.

Lemma is_score_number_of_Z (n : Z) :
  is_score (VNum (number_of_Z n)) ↔ (0 ≤ n ≤ 100)%Z.
Proof.
  split.
  - intros (m & Hm & Heq).
    assert (number_of_Z n = number_of_Z m) as Hnm by congruence.
    apply number_of_Z_inj in Hnm. by subst m.
  - intros Hn. by exists n.
Qed.

(** The scores pass the checks of [truthScore]. *)
Lemma score_passes (p : list PathSegment) (n : Z) :
  (0 ≤ n ≤ 100)%Z →
  omap (number_check p (number_of_Z n))
       [check_int; check_min 0 true; check_max 100 true] = [].
Proof.
  intros Hn. cbn [omap list_omap number_check].
  assert (isInteger (number_of_Z n) = true) as ->.
  { unfold isInteger, number_of_Z. by rewrite this_number_of_Z. }
  assert (number_lt (number_of_Z n) (number_of_Z 0) = false) as ->.
  { unfold number_lt, number_compare, number_of_Z, Qccompare, Qcompare.
    rewrite !this_number_of_Z. simpl.
    match goal with
    | |- context [(?a ?= ?b)%Z] => destruct (Z.compare_spec a b)
    end; try done; lia. }
  assert (number_gt (number_of_Z n) (number_of_Z 100) = false) as ->.
  { unfold number_gt, number_compare, number_of_Z, Qccompare, Qcompare.
    rewrite !this_number_of_Z. simpl.
    match goal with
    | |- context [(?a ?= ?b)%Z] => destruct (Z.compare_spec a b)
    end; try done; lia. }
  reflexivity.
Qed.

(** The [truthScore] property accepts the scores. *)
Lemma score_accepted (p : list PathSegment) (n : Z) :
  (0 ≤ n ≤ 100)%Z →
  _parse (z.number |> z.int |> z.min 0 |> z.max 100 |> z.nullable) p
    (VNum (number_of_Z n))
  = ([], OK (VNum (number_of_Z n))).
Proof.
  intros Hn. change (number_of_Z n) with (Finite (Q2Qc (inject_Z n))).
  cbn [_parse z.nullable z.max z.min z.int z.number z.addCheck app].
  change (Finite (Q2Qc (inject_Z n))) with (number_of_Z n).
  by rewrite score_passes.
Qed.

(** [Number.isInteger] holds of the integers only. *)
Lemma isInteger_number_of_Z (q : Qc) :
  isInteger (Finite q) = true → Finite q = number_of_Z (Qnum q).
Proof.
  unfold isInteger. intros Hden. apply Pos.eqb_eq in Hden.
  unfold number_of_Z. f_equal. apply Qc_is_canon. simpl.
  rewrite Qred_correct. destruct q as [[n d] Hc]. simpl in *. subst d.
  reflexivity.
Qed.

(** The checks [int().min(0).max(100)] pass on the scores only. *)
Lemma score_checks (p : list PathSegment) (n : number) :
  omap (number_check p n) [check_int; check_min 0 true; check_max 100 true] = [] →
  is_score (VNum n).
Proof.
  destruct n as [|b|q].
  - simpl. discriminate.
  - simpl. discriminate.
  - intros Hchecks. cbn [omap list_omap number_check] in Hchecks.
    destruct (isInteger (Finite q)) eqn:Hi; [|discriminate].
    destruct (number_lt (Finite q) (number_of_Z 0)) eqn:Hlt; [discriminate|].
    destruct (number_gt (Finite q) (number_of_Z 100)) eqn:Hgt; [discriminate|].
    pose proof (isInteger_number_of_Z q Hi) as Hq.
    exists (Qnum q). split; [|by rewrite Hq].
    unfold isInteger in Hi. apply Pos.eqb_eq in Hi.
    unfold number_lt, number_gt, number_compare, number_of_Z in Hlt, Hgt.
    unfold Qccompare, Qcompare in Hlt, Hgt. simpl in Hlt, Hgt.
    rewrite Hi in Hlt, Hgt.
    destruct (Z.compare_spec (Qnum q * 1) (0 * 1)); try discriminate;
      destruct (Z.compare_spec (Qnum q * 1) (100 * 1)); try discriminate; lia.
Qed.

(** The issues of a number schema are reported at the path of the parse. *)
Lemma number_issue_path (checks : list ZodNumberCheck) (p : list PathSegment)
    (data : value) (issue : ZodIssue) :
  issue ∈ (_parse (ZodNumber checks) p data).1 → path issue = p.
Proof.
  intros Hin.
  destruct data as [| | |[| |]| | |]; simpl in *;
    try (apply list_elem_of_singleton in Hin as ->; done);
    apply list_elem_of_omap in Hin as (c & _ & Hc);
    destruct c as [|b [|]|b [|]]; simpl in Hc;
    repeat match type of Hc with
           | context [if ?b then _ else _] => destruct b
           end;
    try discriminate; by injection Hc as <-.
Qed.

Lemma nullable_number_issue_path (checks : list ZodNumberCheck) (p : list PathSegment)
    (data : value) (issue : ZodIssue) :
  issue ∈ (_parse (ZodNullable (ZodNumber checks)) p data).1 → path issue = p.
Proof.
  intros Hin. destruct data;
    match type of Hin with
    | context [_parse _ _ VNull] => by apply elem_of_nil in Hin
    | context [_parse _ _ ?d] => exact (number_issue_path checks p d issue Hin)
    end.
Qed.

(** C9. The minimal valid result is accepted: a candidate with
    [sources: []], every nullable field [null], empty [keyNumbers] and
    [measurableFacts], and the report "Insufficient information to
    verify." passes the validator, in whatever order it lists these
    properties, and the validator returns the minimal result. *)
Theorem minimal_accepted (fields : list (string * value)) :
  (∀ k, k ∈ keys_of factCheckZ → assoc k fields = assoc k (own_fields minimal)) →
  safeParse factCheckZ (VObj fields) = inr minimal.
Proof.
  intros Hminimal. apply safeParse_inr. unfold factCheckZ, z.object.
  rewrite (parse_object_ext _ [] (own_fields minimal) fields Hminimal).
  reflexivity.
Qed.

(** C8. A candidate object without the required [report] field is
    rejected, with the issue "Required" at path [report]. *)
Theorem report_required (fields : list (string * value)) :
  assoc "report" fields = None →
  ∃ issues,
    safeParse factCheckZ (VObj fields) = inl issues
    ∧ {| code := invalid_type; path := [Key "report"]; message := "Required" |}
      ∈ issues.
Proof.
  intros Habsent.
  destruct (object_rejected (shape_of factCheckZ) fields ("report", z.string))
    as (issues & Hrej & Hissues).
  - simpl. do 7 right. left.
  - unfold field_parse, get_field. simpl. rewrite Habsent. simpl.
    intros [v Hv]. discriminate.
  - exists issues. split; [exact Hrej|]. apply Hissues.
    unfold field_parse, get_field. simpl. rewrite Habsent. simpl. left.
Qed.

(** C2. A candidate object whose [truthScore] is present, is not [null]
    and is not an integer from 0 to 100 is rejected: the validator returns
    issues, one of them at path [truthScore], and no result. *)
Theorem truthScore_out_of_range_rejected (fields : list (string * value)) (v : value) :
  assoc "truthScore" fields = Some v →
  v ≠ VNull →
  ¬ is_score v →
  ∃ issues,
    safeParse factCheckZ (VObj fields) = inl issues
    ∧ ∃ issue, issue ∈ issues ∧ path issue = [Key "truthScore"].
Proof.
  intros Hpresent Hnull Hscore.
  set (kt := ("truthScore",
              z.number |> z.int |> z.min 0 |> z.max 100 |> z.nullable)).
  assert (¬ is_OK (field_parse [] fields kt).2) as Hfield.
  { unfold field_parse, get_field. simpl. rewrite Hpresent. simpl.
    intros [w Hw]. destruct v as [| | |[|b|q]| | |]; simpl in Hw; try discriminate; [done|..];
      apply finish_OK in Hw as [Hchecks _];
      apply Hscore; by apply (score_checks [Key "truthScore"]). }
  destruct (object_rejected (shape_of factCheckZ) fields kt)
    as (issues & Hrej & Hissues); [simpl; do 6 right; left | done |].
  exists issues. split; [exact Hrej|].
  pose proof (parse_not_OK_issue _ _ _ Hfield) as Hne.
  fold (field_parse [] fields kt) in Hne.
  destruct (field_parse [] fields kt).1 as [|issue rest] eqn:Hi; [done|].
  exists issue. split; [apply Hissues; left|].
  assert (issue ∈ (field_parse [] fields kt).1) as Hin by (rewrite Hi; left).
  by apply nullable_number_issue_path in Hin.
Qed.

(** *** Omitted and unknown properties *)

Lemma filter_all_true {A : Type} (f : A → bool) (l : list A) :
  (∀ x, x ∈ l → f x = true) → List.filter f l = l.
Proof.
  induction l as [|x l IH]; simpl; intros Hall; [done|].
  rewrite (Hall x) by left. f_equal. apply IH. intros y Hy. apply Hall. by right.
Qed.

Lemma existsb_eqb (k : string) (keys : list string) :
  existsb (String.eqb k) keys = true ↔ k ∈ keys.
Proof.
  rewrite existsb_exists. split.
  - intros (x & Hx & Heq). apply eqb_string_true in Heq as ->. by apply list_elem_of_In.
  - intros Hk. exists k. split; [by apply list_elem_of_In | apply String.eqb_refl].
Qed.

Lemma assoc_omit (k : string) (keys : list string) (fields : list (string * value)) :
  assoc k (omit keys fields) = if existsb (String.eqb k) keys then None else assoc k fields.
Proof.
  induction fields as [|[k' w] rest IH]; simpl.
  - by destruct (existsb _ keys).
  - destruct (existsb (String.eqb k') keys) eqn:Ek'; simpl.
    + rewrite IH. destruct (String.eqb k k') eqn:E; [|done].
      apply eqb_string_true in E as ->. by rewrite Ek'.
    + rewrite IH. destruct (String.eqb k k') eqn:E; [|done].
      apply eqb_string_true in E as ->. by rewrite Ek'.
Qed.

(** A candidate without the property [k] is what [omit] makes of the
    candidate completed with some value for [k]. *)
Lemma omit_completed (k : string) (v : value) (fields : list (string * value)) :
  assoc k fields = None → omit [k] (fields ++ [(k, v)]) = fields.
Proof.
  intros Habsent. unfold omit. rewrite List.filter_app. simpl.
  rewrite String.eqb_refl. simpl. rewrite app_nil_r.
  apply filter_all_true. intros [k' w] Hin. simpl. rewrite orb_false_r.
  apply negb_true_iff, eqb_string_false. intros ->.
  apply assoc_None in Habsent. apply Habsent.
  by apply (list_elem_of_fmap_2 fst) in Hin.
Qed.

Lemma get_not_own_key (r : value) (k : string) :
  k ∉ own_keys r → get r k = VUndefined.
Proof.
  destruct r; try done. simpl. intros Hk. apply assoc_None in Hk.
  unfold get_field. by rewrite Hk.
Qed.

(** Leaving out properties whose schema accepts [undefined] (a default, an
    optional) keeps a candidate accepted: the result holds what the schema
    makes of [undefined] at these keys, and is unchanged elsewhere. *)
Lemma omit_defaulted (shape : list (string * ZodType)) (p : list PathSegment)
    (fields : list (string * value)) (omitted : list string) (r : value)
    (dflt : string → value) :
  NoDup (map fst shape) → "__proto__" ∉ map fst shape →
  (∀ k, k ∈ omitted →
     ∃ t, (k, t) ∈ shape ∧ (_parse t (p ++ [Key k]) VUndefined).2 = OK (dflt k)) →
  (_parse (ZodObject shape) p (VObj fields)).2 = OK r →
  ∃ r', (_parse (ZodObject shape) p (VObj (omit omitted fields))).2 = OK r'
        ∧ (∀ k, k ∈ omitted → get r' k = dflt k)
        ∧ (∀ k, k ∉ omitted → get r' k = get r k).
Proof.
  intros Hnd Hproto Hdflt Hr.
  assert (∀ kt, kt ∈ shape →
            (field_parse p (omit omitted fields) kt).2
            = if decide (kt.1 ∈ omitted) then OK (dflt kt.1)
              else (field_parse p fields kt).2) as Hfield.
  { intros [k t] Hkt. simpl. unfold field_parse, get_field. simpl.
    rewrite assoc_omit. destruct (decide (k ∈ omitted)) as [Hk|Hk].
    - rewrite (proj2 (existsb_eqb k omitted) Hk). simpl.
      destruct (Hdflt k Hk) as (t' & Ht' & Hparse).
      assert (t' = t) as ->; [|done].
      apply (assoc_NoDup k t' shape Hnd) in Ht'.
      apply (assoc_NoDup k t shape Hnd) in Hkt. congruence.
    - destruct (existsb (String.eqb k) omitted) eqn:E; [|done].
      by apply existsb_eqb in E. }
  assert (is_OK (_parse (ZodObject shape) p (VObj fields)).2) as Hok by (by eexists).
  apply object_accepted_iff in Hok. rewrite Forall_forall in Hok.
  assert (is_OK (_parse (ZodObject shape) p (VObj (omit omitted fields))).2)
    as [r' Hr'].
  { apply object_accepted_iff, Forall_forall. intros kt Hkt.
    rewrite (Hfield kt Hkt). destruct (decide _); [by eexists | by apply Hok]. }
  exists r'. split; [done|]. split.
  - intros k Hk. destruct (Hdflt k Hk) as (t & Ht & _).
    pose proof (object_result_field _ _ _ _ (k, t) Hr' Hnd Hproto Ht) as Hget.
    rewrite (Hfield _ Ht) in Hget. simpl in Hget.
    rewrite decide_True in Hget by done. by injection Hget as <-.
  - intros k Hk. destruct (decide (k ∈ map fst shape)) as [Hin|Hout].
    + apply list_elem_of_fmap in Hin as ([k' t] & -> & Ht). simpl in *.
      pose proof (object_result_field _ _ _ _ (k', t) Hr' Hnd Hproto Ht) as Hget'.
      pose proof (object_result_field _ _ _ _ (k', t) Hr Hnd Hproto Ht) as Hget.
      rewrite (Hfield _ Ht) in Hget'. simpl in Hget', Hget.
      rewrite decide_False in Hget' by done. congruence.
    + rewrite !get_not_own_key; [done| |].
      * intros Hin. by apply Hout, (object_result_keys _ _ _ _ Hr).
      * intros Hin. by apply Hout, (object_result_keys _ _ _ _ Hr').
Qed.

(** The three array properties of [factCheckZ] default to the empty array. *)
Lemma factCheckZ_defaults (k : string) :
  k ∈ ["keyNumbers"; "measurableFacts"; "sources"] →
  ∃ t, (k, t) ∈ shape_of factCheckZ
       ∧ (_parse t ([] ++ [Key k]) VUndefined).2 = OK (VArr []).
Proof.
  intros Hk. repeat (apply elem_of_cons in Hk as [->|Hk]).
  - eexists. split; [simpl; do 2 right; left | reflexivity].
  - eexists. split; [simpl; do 3 right; left | reflexivity].
  - eexists. split; [simpl; do 8 right; left | reflexivity].
  - by apply elem_of_nil in Hk.
Qed.

Lemma factCheckZ_omit (fields : list (string * value)) (omitted : list string)
    (r : value) :
  omitted ⊆ ["keyNumbers"; "measurableFacts"; "sources"] →
  safeParse factCheckZ (VObj fields) = inr r →
  ∃ r', safeParse factCheckZ (VObj (omit omitted fields)) = inr r'
        ∧ (∀ k, k ∈ omitted → get r' k = VArr [])
        ∧ (∀ k, k ∉ omitted → get r' k = get r k).
Proof.
  intros Hsub Hr. apply safeParse_inr in Hr.
  destruct factCheckZ_keys as [Hnd Hproto].
  destruct (omit_defaulted (shape_of factCheckZ) [] fields omitted r (λ _, VArr [])
              Hnd Hproto) as (r' & Hr' & Hget); [|done|].
  - intros k Hk. by apply factCheckZ_defaults, Hsub.
  - exists r'. split; [by apply safeParse_inr | done].
Qed.

(** C7. A candidate that is otherwise valid but omits [keyNumbers] or
    [measurableFacts] (or both) is accepted, and the result has the empty
    sequence at the omitted fields and the values of the complete
    candidate everywhere else. *)
Theorem omitted_arrays_default_to_empty (fields : list (string * value))
    (omitted : list string) (r : value) :
  omitted ⊆ ["keyNumbers"; "measurableFacts"] →
  safeParse factCheckZ (VObj fields) = inr r →
  ∃ r', safeParse factCheckZ (VObj (omit omitted fields)) = inr r'
        ∧ (∀ k, k ∈ omitted → get r' k = VArr [])
        ∧ (∀ k, k ∉ omitted → get r' k = get r k).
Proof.
  intros Hsub. apply factCheckZ_omit.
  intros k Hk. apply Hsub in Hk.
  repeat (apply elem_of_cons in Hk as [->|Hk]);
    [left | right; left | by apply elem_of_nil in Hk].
Qed.

(** C6, as the code has it. A candidate that is otherwise valid but has no
    [sources] field is accepted: the result has [sources] set to the empty
    sequence and the values of the complete candidate everywhere else. *)
Theorem omitted_sources_default_to_empty (fields : list (string * value)) (r : value) :
  safeParse factCheckZ (VObj fields) = inr r →
  ∃ r', safeParse factCheckZ (VObj (omit ["sources"] fields)) = inr r'
        ∧ get r' "sources" = VArr []
        ∧ (∀ k, k ≠ "sources" → get r' k = get r k).
Proof.
  intros Hr.
  destruct (factCheckZ_omit fields ["sources"] r) as (r' & Hr' & Hdef & Hsame);
    [|done|].
  - intros k Hk. apply list_elem_of_singleton in Hk as ->. do 2 right. left.
  - exists r'. split; [done|]. split.
    + apply Hdef. left.
    + intros k Hk. apply Hsame. intros Hin. by apply list_elem_of_singleton in Hin.
Qed.


(** C5. Validation is idempotent: for a candidate read by [JSON.parse]
    and accepted by the validator, serializing the validated result to
    JSON and parsing the text gives the result back, and validating it
    again succeeds with the same result. *)
Theorem validation_idempotent (candidate r : value) :
  is_json_parsed candidate = true →
  safeParse factCheckZ candidate = inr r →
  ∃ r', JSON_roundtrip r = Some r' ∧ safeParse factCheckZ r' = inr r.
Proof.
  intros Hjson Hr. apply safeParse_inr in Hr.
  exists r. split.
  - apply JSON_roundtrip_id. by apply (parse_json factCheckZ [] candidate).
  - apply safeParse_inr. by rewrite (parse_idempotent factCheckZ [] candidate r).
Qed.
End Validator.

(** ** Flattening the issues *)


Lemma flatten_step_fieldErrors (acc : FlattenedError) (sub : ZodIssue) (k : string) :
  fieldErrors (flatten_step acc sub) !! k =
    if at_key k sub
    then Some (default [] (fieldErrors acc !! k) ++ [message sub])
    else fieldErrors acc !! k.
Proof.
  unfold flatten_step, at_key. destruct (path sub) as [|seg rest]; simpl; [done|].
  destruct (String.eqb (segment_key seg) k) eqn:E.
  - apply eqb_string_true in E as ->. by rewrite lookup_insert_eq.
  - apply eqb_string_false in E. by rewrite lookup_insert_ne.
Qed.

Lemma fold_flatten_fieldErrors (issues : list ZodIssue) (acc : FlattenedError)
    (k : string) :
  fieldErrors (fold_left flatten_step issues acc) !! k =
    match map message (List.filter (at_key k) issues) with
    | [] => fieldErrors acc !! k
    | msgs => Some (default [] (fieldErrors acc !! k) ++ msgs)
    end.
Proof.
  revert acc. induction issues as [|sub issues IH]; intros acc; simpl; [done|].
  rewrite IH, flatten_step_fieldErrors.
  destruct (at_key k sub); simpl; [|done].
  destruct (map message (List.filter (at_key k) issues)) as [|m msgs]; [done|].
  simpl. by rewrite <- app_assoc.
Qed.

(** The field errors of a key are the messages of the issues whose path
    starts with that key, in order; a key without issue has no entry. *)
Lemma flatten_fieldErrors (issues : list ZodIssue) (k : string) :
  fieldErrors (flatten issues) !! k =
    match map message (List.filter (at_key k) issues) with
    | [] => None
    | msgs => Some msgs
    end.
Proof.
  unfold flatten. rewrite fold_flatten_fieldErrors. simpl.
  rewrite lookup_empty. done.
Qed.

Section FieldErrors.
Context `{Platform}.



End FieldErrors.

(** ** The Analyze Request Handler: [POST] *)

Section Handler.
Context `{Platform} `{Service}.

Lemma bind_run {A B : Type} (m : M A) (k : A → M B) (log : list CreateParams) :
  (m ≫= k) log =
    match m log with
    | (log', inl e) => (log', inl e)
    | (log', inr a) => k a log'
    end.
Proof. reflexivity. Qed.

(** The outcomes of one invocation, step by step. *)
Lemma POST_steps (req : Request) (log : list CreateParams) :
  POST req log =
    match json req with
    | inl msg => (log, inr (internal_error msg))
    | inr parsed_body =>
        match destructure parsed_body "image" log with
        | (_, inl (Error msg)) => (log, inr (internal_error msg))
        | (_, inl (ZodError issues)) =>
            (log, inr (NextResponse_json (ErrorFields (flatten issues)) 422))
        | (_, inr image) =>
            if negb (to_boolean image)
               || negb (String.eqb (typeof image) "string")
               || negb (startsWith image "data:image")
            then
              (log,
               inr (NextResponse_json
                      (ErrorMessage
                         "Invalid image. Send a data URL (base64) captured from camera or upload.")
                      400))
            else
              let log' := log ++ [create_params image] in
              match responses_create (create_params image) with
              | inl msg => (log', inr (internal_error msg))
              | inr response =>
                  match JSON_parse (default "undefined" (output_text response)) with
                  | inl msg => (log', inr (internal_error (Some msg)))
                  | inr parsed =>
                      match safeParse factCheckZ parsed with
                      | inl issues =>
                          (log',
                           inr (NextResponse_json (ErrorFields (flatten issues)) 422))
                      | inr validated =>
                          (log', inr (NextResponse_json (Result validated) 200))
                      end
                  end
              end
        end
    end.
Proof.
  unfold POST, try_catch. rewrite bind_run.
  destruct (json req) as [msg|parsed_body]; [reflexivity|].
  cbn [lift mret M_ret]. rewrite bind_run.
  destruct (destructure parsed_body "image" log) as [log1 [[issues|msg]|image]] eqn:Hd.
  - destruct parsed_body; discriminate.
  - destruct parsed_body; try discriminate; by injection Hd as -> <-.
  - assert (log1 = log) as -> by (destruct parsed_body; by injection Hd).
    destruct (_ || _); [reflexivity|].
    rewrite bind_run. unfold create.
    destruct (responses_create (create_params image)) as [msg|response]; [reflexivity|].
    rewrite bind_run. unfold JSON_parse_text.
    destruct (JSON_parse _) as [msg|parsed]; [reflexivity|].
    cbn [mret M_ret]. rewrite bind_run. unfold parse.
    destruct (safeParse factCheckZ parsed) as [issues|validated]; reflexivity.
Qed.

Lemma destructure_defined (parsed_body : value) (key : string)
    (log : list CreateParams) :
  parsed_body ≠ VNull → parsed_body ≠ VUndefined →
  destructure parsed_body key log = (log, inr (get parsed_body key)).
Proof. by destruct parsed_body. Qed.

Lemma data_url_accepted (s : string) :
  String.prefix "data:image" s = true →
  negb (to_boolean (VStr s))
  || negb (String.eqb (typeof (VStr s)) "string")
  || negb (startsWith (VStr s) "data:image") = false.
Proof.
  intros Hprefix. cbn [to_boolean typeof startsWith]. rewrite Hprefix.
  destruct s; [discriminate Hprefix | reflexivity].
Qed.

Lemma not_data_url_refused (image : value) :
  (∀ s, image = VStr s → String.prefix "data:image" s = false) →
  negb (to_boolean image)
  || negb (String.eqb (typeof image) "string")
  || negb (startsWith image "data:image") = true.
Proof.
  intros Himage. destruct image as [| |b|n|s| |]; cbn [typeof startsWith];
    try (by rewrite ?orb_true_r).
  rewrite (Himage s eq_refl). by rewrite orb_true_r.
Qed.


(** C4. For a well-formed image input, when the text returned by the
    inference call is not parseable as JSON, the response is the
    internal error: status 500 with the message of the parse error, or
    "Unexpected server error" when that message is empty; it is not a
    result, and the service was called exactly once. *)
Theorem unparseable_reply_is_internal_error (req : Request) (parsed_body : value)
    (image msg : string) (response : Response) (log : list CreateParams) :
  json req = inr parsed_body →
  get parsed_body "image" = VStr image →
  String.prefix "data:image" image = true →
  responses_create (create_params (VStr image)) = inr response →
  JSON_parse (default "undefined" (output_text response)) = inl msg →
  POST req log =
    (log ++ [create_params (VStr image)],
     inr (NextResponse_json
            (ErrorMessage (if String.eqb msg "" then "Unexpected server error" else msg))
            500))
  ∧ ∀ log' r validated, POST req log = (log', inr r) → body r ≠ Result validated.
Proof.
  intros Hjson Hget Hprefix Hcreate Hparse.
  assert (POST req log =
            (log ++ [create_params (VStr image)],
             inr (NextResponse_json
                    (ErrorMessage
                       (if String.eqb msg "" then "Unexpected server error" else msg))
                    500))) as Hpost.
  { rewrite POST_steps, Hjson, destructure_defined, Hget;
      [|intros ->; discriminate..].
    rewrite data_url_accepted by done. simpl. by rewrite Hcreate, Hparse. }
  split; [exact Hpost|].
  intros log' r validated Hr. rewrite Hpost in Hr. by injection Hr as _ <-.
Qed.

(** A request whose body is [null] cannot be destructured: the handler
    answers with the internal error. *)
Lemma null_body_is_internal_error (req : Request)
    (log : list CreateParams) :
  json req = inr VNull →
  ∃ msg, POST req log = (log, inr (internal_error (Some msg))) ∧ msg ≠ "".
Proof.
  intros Hjson. rewrite POST_steps, Hjson. simpl. eexists. split; [reflexivity|done].
Qed.

(** The handler never throws: each invocation ends with a response, whose
    status is 200, 400, 422 or 500. *)
Lemma POST_responds (req : Request) (log : list CreateParams) :
  ∃ log' r, POST req log = (log', inr r) ∧ status r ∈ [200; 400; 422; 500].
Proof.
  rewrite POST_steps.
  destruct (json req) as [msg|parsed_body].
  { eexists _, _. split; [reflexivity|]. simpl. do 3 right. left. }
  destruct (destructure parsed_body "image" log) as [log1 [[issues|msg]|image]].
  { eexists _, _. split; [reflexivity|]. simpl. do 2 right. left. }
  { eexists _, _. split; [reflexivity|]. simpl. do 3 right. left. }
  destruct (_ || _).
  { eexists _, _. split; [reflexivity|]. simpl. right. left. }
  simpl. destruct (responses_create _) as [msg|response].
  { eexists _, _. split; [reflexivity|]. simpl. do 3 right. left. }
  destruct (JSON_parse _) as [msg|parsed].
  { eexists _, _. split; [reflexivity|]. simpl. do 3 right. left. }
  destruct (safeParse factCheckZ parsed) as [issues|validated].
  { eexists _, _. split; [reflexivity|]. simpl. do 2 right. left. }
  eexists _, _. split; [reflexivity|]. simpl. left.
Qed.
End Handler.


(** ** The properties on examples *)

(** The minimal result of the schema test, as the test writes it. *)
Lemma minimal_accepted_witness :
  (∀ k, k ∈ keys_of factCheckZ →
     assoc k (own_fields minimal) = assoc k (own_fields minimal))
  ∧ @safeParse example_platform factCheckZ (VObj (own_fields minimal)) = inr minimal.
Proof.
  split; [intros k Hk; reflexivity|].
  apply (@minimal_accepted example_platform (own_fields minimal)).
  intros k Hk. reflexivity.
Defined.

(** The same properties in another order, with one more. *)
Example minimal_reordered :
  @safeParse example_platform factCheckZ
    (VObj (("note", VStr "n/a") :: rev (own_fields minimal)))
  = inr minimal.
Proof. reflexivity. Qed.

(** The valid response of the schema test with another [truthScore]. *)
Example truthScore_minus_5 :
  @safeParse example_platform factCheckZ
    (VObj (set_field "truthScore" (VNum (number_of_Z (-5))) valid_response_fields))
  = inl [{| code := too_small; path := [Key "truthScore"];
            message := "Number must be greater than or equal to 0" |}].
Proof. reflexivity. Qed.

Example truthScore_fraction :
  @safeParse example_platform factCheckZ
    (VObj (set_field "truthScore" (VNum (Finite (Q2Qc (145 # 2)))) valid_response_fields))
  = inl [{| code := invalid_type; path := [Key "truthScore"];
            message := "Expected integer, received float" |}].
Proof. reflexivity. Qed.

Example truthScore_text :
  @safeParse example_platform factCheckZ
    (VObj (set_field "truthScore" (VStr "72") valid_response_fields))
  = inl [{| code := invalid_type; path := [Key "truthScore"];
            message := "Expected number, received string" |}].
Proof. reflexivity. Qed.

Example truthScore_bounds :
  @safeParse example_platform factCheckZ
    (VObj (set_field "truthScore" (VNum (number_of_Z 0)) valid_response_fields))
  = inr (VObj (set_field "truthScore" (VNum (number_of_Z 0)) valid_response_fields))
  ∧ @safeParse example_platform factCheckZ
      (VObj (set_field "truthScore" (VNum (number_of_Z 100)) valid_response_fields))
    = inr (VObj (set_field "truthScore" (VNum (number_of_Z 100)) valid_response_fields)).
Proof. split; reflexivity. Qed.

(** A source without [url], and one whose [url] is not a URL, are both
    reported under [sources]. *)
Example sources_field_errors :
  fieldErrors
    (flatten
       (@_parse example_platform factCheckZ []
          (VObj (set_field "sources"
                   (VArr [VObj [("title", VStr "no link")];
                          VObj [("url", VStr "see the leaflet")]])
                   valid_response_fields))).1)
  = {[ "sources" := ["Required"; "Invalid url"] ]}.
Proof. by vm_compute. Qed.

(** The out-of-range response of the schema test, with [truthScore: 120]. *)
Lemma truthScore_out_of_range_rejected_witness :
  assoc "truthScore" out_of_range_fields = Some (VNum (number_of_Z 120))
  ∧ VNum (number_of_Z 120) ≠ VNull
  ∧ ¬ is_score (VNum (number_of_Z 120))
  ∧ ∃ issues,
      @safeParse example_platform factCheckZ (VObj out_of_range_fields) = inl issues
      ∧ ∃ issue, issue ∈ issues ∧ path issue = [Key "truthScore"].
Proof.
  assert (¬ is_score (VNum (number_of_Z 120))) as Hns.
  { rewrite is_score_number_of_Z. lia. }
  split; [reflexivity|]. split; [discriminate|]. split; [exact Hns|].
  apply (@truthScore_out_of_range_rejected example_platform out_of_range_fields
           (VNum (number_of_Z 120))); [reflexivity | discriminate | exact Hns].
Defined.

(** The valid response of the schema test, without its [report]. *)
Lemma report_required_witness :
  assoc "report" (omit ["report"] valid_response_fields) = None
  ∧ ∃ issues,
      @safeParse example_platform factCheckZ
        (VObj (omit ["report"] valid_response_fields)) = inl issues
      ∧ {| code := invalid_type; path := [Key "report"]; message := "Required" |}
        ∈ issues.
Proof.
  split; [reflexivity|].
  apply (@report_required example_platform (omit ["report"] valid_response_fields)).
  reflexivity.
Defined.

(** The valid response of the schema test is a fixed point of validation. *)
Lemma validation_idempotent_witness :
  is_json_parsed (VObj valid_response_fields) = true
  ∧ @safeParse example_platform factCheckZ (VObj valid_response_fields)
    = inr (VObj valid_response_fields)
  ∧ ∃ r', JSON_roundtrip (VObj valid_response_fields) = Some r'
          ∧ @safeParse example_platform factCheckZ r' = inr (VObj valid_response_fields).
Proof.
  split; [reflexivity|]. split; [reflexivity|].
  apply (@validation_idempotent example_platform (VObj valid_response_fields)
           (VObj valid_response_fields)); reflexivity.
Defined.

(** The valid response of the schema test, without its two string arrays. *)
Lemma omitted_arrays_default_to_empty_witness :
  ["keyNumbers"; "measurableFacts"] ⊆ ["keyNumbers"; "measurableFacts"]
  ∧ @safeParse example_platform factCheckZ (VObj valid_response_fields)
    = inr (VObj valid_response_fields)
  ∧ ∃ r',
      @safeParse example_platform factCheckZ
        (VObj (omit ["keyNumbers"; "measurableFacts"] valid_response_fields)) = inr r'
      ∧ (∀ k, k ∈ ["keyNumbers"; "measurableFacts"] → get r' k = VArr [])
      ∧ (∀ k, k ∉ ["keyNumbers"; "measurableFacts"] →
           get r' k = get (VObj valid_response_fields) k).
Proof.
  split; [intros k Hk; exact Hk|]. split; [reflexivity|].
  apply (@omitted_arrays_default_to_empty example_platform valid_response_fields
           ["keyNumbers"; "measurableFacts"] (VObj valid_response_fields));
    [intros k Hk; exact Hk | reflexivity].
Defined.

(** The valid response of the schema test, without its [sources]. *)
Lemma omitted_sources_default_to_empty_witness :
  @safeParse example_platform factCheckZ (VObj valid_response_fields)
  = inr (VObj valid_response_fields)
  ∧ ∃ r',
      @safeParse example_platform factCheckZ
        (VObj (omit ["sources"] valid_response_fields)) = inr r'
      ∧ get r' "sources" = VArr []
      ∧ (∀ k, k ≠ "sources" → get r' k = get (VObj valid_response_fields) k).
Proof.
  split; [reflexivity|].
  apply (@omitted_sources_default_to_empty example_platform valid_response_fields
           (VObj valid_response_fields)).
  reflexivity.
Defined.

(** C6, as stated, fails: the minimal result without its [sources] field
    is otherwise valid and has no [sources] field, and the validator
    accepts it, on every platform, instead of rejecting it. *)
Lemma omitted_sources_not_rejected :
  assoc "sources" (own_fields minimal_without_sources) = None
  ∧ @safeParse example_platform factCheckZ minimal_without_sources = inr minimal
  ∧ (∀ P : Platform,
       ¬ ∃ issues, @safeParse P factCheckZ minimal_without_sources = inl issues).
Proof.
  split; [reflexivity|]. split; [reflexivity|].
  intros P [issues Hrejected]. discriminate Hrejected.
Qed.




(** A data URL, and a service that replies with an HTML page. *)
Lemma unparseable_reply_is_internal_error_witness :
  json data_url_request = inr (VObj [("image", VStr "data:image/webp;base64,UklGRg==")])
  ∧ get (VObj [("image", VStr "data:image/webp;base64,UklGRg==")]) "image"
    = VStr "data:image/webp;base64,UklGRg=="
  ∧ String.prefix "data:image" "data:image/webp;base64,UklGRg==" = true
  ∧ @JSON_parse example_platform "<!DOCTYPE html>"
    = inl "Unexpected token in JSON at position 0"
  ∧ @POST example_platform
      (example_service (inr {| output_text := Some "<!DOCTYPE html>" |}))
      data_url_request []
    = ([@create_params (example_service (inr {| output_text := Some "<!DOCTYPE html>" |}))
          (VStr "data:image/webp;base64,UklGRg==")],
       inr (NextResponse_json
              (ErrorMessage "Unexpected token in JSON at position 0") 500)).
Proof.
  split; [reflexivity|]. split; [reflexivity|]. split; [reflexivity|].
  split; [reflexivity|].
  apply (@unparseable_reply_is_internal_error example_platform
           (example_service (inr {| output_text := Some "<!DOCTYPE html>" |}))
           data_url_request
           (VObj [("image", VStr "data:image/webp;base64,UklGRg==")])
           "data:image/webp;base64,UklGRg=="
           "Unexpected token in JSON at position 0"
           {| output_text := Some "<!DOCTYPE html>" |} []); reflexivity.
Defined.


(** * More of the schemas *)

(** ** Results do not depend on the path, and plain schemas return their
    input *)

Section SchemaFacts.
Context `{Platform}.

Lemma finish_same (issues issues' : list ZodIssue) (data : value) :
  (issues = [] ↔ issues' = []) → finish issues data = finish issues' data.
Proof.
  destruct issues, issues'; simpl; intros [H1 H2]; try done.
  - by specialize (H1 eq_refl).
  - by specialize (H2 eq_refl).
Qed.

Lemma omap_nil_iff {A B : Type} (f : A → option B) (l : list A) :
  omap f l = [] ↔ ∀ x, x ∈ l → f x = None.
Proof.
  split; [intros Hnil x; by apply omap_nil|].
  induction l as [|x l IH]; intros Hall; [done|]. simpl.
  rewrite (Hall x) by left. apply IH. intros y Hy. apply Hall. by right.
Qed.

Lemma string_check_path (p p' : list PathSegment) (s : string) (c : ZodStringCheck) :
  string_check p s c = None ↔ string_check p' s c = None.
Proof. destruct c; simpl. by destruct (URL_ok s). Qed.

Lemma number_check_path (p p' : list PathSegment) (n : number) (c : ZodNumberCheck) :
  number_check p n c = None ↔ number_check p' n c = None.
Proof.
  destruct c as [|b [|]|b [|]]; simpl;
    repeat match goal with
           | |- context [if ?b then _ else _] => destruct b
           end; done.
Qed.

(** The status and the value of a parse are the same at every path. *)
Lemma parse_result_path (schema : ZodType) (p p' : list PathSegment) (data : value) :
  (_parse schema p data).2 = (_parse schema p' data).2.
Proof.
  revert p p' data.
  induction schema as [checks|checks|type IH|shape IH|inner IH|inner IH|inner d IH]
    using ZodType_nested_ind; intros p p' data.
  - destruct data; try done. simpl. apply finish_same.
    rewrite !omap_nil_iff. split; intros Hall c Hc.
    + apply (string_check_path p p'). by apply Hall.
    + apply (string_check_path p p'). by apply Hall.
  - destruct data as [| | |[| |]| | |]; try done; simpl; apply finish_same;
      rewrite !omap_nil_iff; split; intros Hall c Hc;
      first [ apply (number_check_path p p'); by apply Hall
            | apply (number_check_path p' p); by apply Hall ].
  - destruct data as [| | | | |items|]; try done.
    rewrite !parse_array. simpl. f_equal.
    apply list_eq. intros i. rewrite !list_lookup_fmap, !list_lookup_imap.
    destruct (items !! i) as [item|]; simpl; [|done]. f_equal. apply IH.
  - destruct data as [| | | | | |fields]; try done.
    rewrite !parse_object. simpl. f_equal.
    apply map_ext_in. intros kt Hkt. apply list_elem_of_In in Hkt.
    rewrite Forall_forall in IH. unfold field_parse. by rewrite (IH kt Hkt _ (p' ++ [Key kt.1])).
  - destruct data; simpl; try done; apply IH.
  - destruct data; simpl; try done; apply IH.
  - simpl. apply IH.
Qed.

(** An array is accepted exactly when each item is, and the result lists
    the results of the items. *)
Lemma array_result (type : ZodType) (p : list PathSegment) (items : list value)
    (w : value) :
  (_parse (ZodArray type) p (VArr items)).2 = OK w ↔
  ∃ ws, w = VArr ws ∧ Forall2 (λ item w', (_parse type p item).2 = OK w') items ws.
Proof.
  rewrite parse_array. simpl. split.
  - intros Hm. apply mergeArray_OK_inv in Hm as (_ & ws & Hws & ->).
    exists ws. split; [done|]. apply Forall2_same_length_lookup. split.
    + apply (f_equal length) in Hws. by rewrite !length_map, length_imap in Hws.
    + intros i item w' Hitem Hw'.
      assert (map snd (imap (λ i item, _parse type (p ++ [Index i]) item) items) !! i
              = Some (OK w')) as Hi.
      { rewrite Hws, list_lookup_fmap, Hw'. done. }
      rewrite list_lookup_fmap, list_lookup_imap, Hitem in Hi. simpl in Hi.
      injection Hi as Hi. by rewrite (parse_result_path type p (p ++ [Index i])).
  - intros (ws & -> & Hall).
    assert (map snd (imap (λ i item, _parse type (p ++ [Index i]) item) items)
            = map OK ws) as ->; [|apply mergeArray_OK].
    apply list_eq. intros i. rewrite !list_lookup_fmap, list_lookup_imap.
    destruct (items !! i) as [item|] eqn:Hitem; simpl.
    + destruct (Forall2_lookup_l _ _ _ _ _ Hall Hitem) as (w' & Hw' & Hres).
      rewrite Hw'. simpl. f_equal.
      by rewrite (parse_result_path type (p ++ [Index i]) p).
    + apply Forall2_length in Hall. apply lookup_ge_None in Hitem.
      rewrite (proj2 (lookup_ge_None ws i)); [done | lia].
Qed.

(** A plain schema returns the value it was given. *)
Lemma plain_result (schema : ZodType) (p : list PathSegment) (data w : value) :
  plain schema = true → (_parse schema p data).2 = OK w → w = data.
Proof.
  revert p data w.
  induction schema as [checks|checks|type IH|shape IH|inner IH|inner IH|inner d IH]
    using ZodType_nested_ind; intros p data w Hplain Hw; try discriminate.
  - destruct data; simpl in Hw; try discriminate. by apply finish_OK in Hw as [_ ->].
  - destruct data as [| | |[| |]| | |]; simpl in Hw; try discriminate;
      by apply finish_OK in Hw as [_ ->].
  - destruct data as [| | | | |items|]; try discriminate. simpl in Hplain.
    apply array_result in Hw as (ws & -> & Hall). f_equal.
    induction Hall as [|item w' items ws Hitem _ IHall]; [done|].
    by rewrite (IH _ _ _ Hplain Hitem), IHall.
  - simpl in Hplain. destruct data; simpl in Hw; try (by apply (IH _ _ _ Hplain Hw)).
    by injection Hw as <-.
  - simpl in Hplain. destruct data; simpl in Hw; try (by apply (IH _ _ _ Hplain Hw)).
    by injection Hw as <-.
Qed.
End SchemaFacts.

(** ** The schemas, property by property *)

Section Candidates.
Context `{Platform}.

Lemma is_score_b_spec (v : value) : is_score_b v = true ↔ is_score v.
Proof.
  split.
  - destruct v as [| | |[| |q]| | |]; try discriminate. unfold is_score_b.
    rewrite !andb_true_iff, Z.leb_le, Z.leb_le. intros [[Hden H0] H100].
    exists (Qnum q). split; [done|]. f_equal. by apply isInteger_number_of_Z.
  - intros (n & Hn & ->). unfold is_score_b, number_of_Z.
    rewrite this_number_of_Z. simpl.
    rewrite !andb_true_iff, Z.leb_le, Z.leb_le. repeat split; try done; lia.
Qed.

Lemma string_OK (p : list PathSegment) (v w : value) :
  (_parse (ZodString []) p v).2 = OK w ↔ w = v ∧ is_string v = true.
Proof.
  destruct v; simpl; split; try (intros [_ ?]; discriminate); try discriminate.
  - by intros [= <-].
  - by intros [-> _].
Qed.

Lemma nullable_string_OK (p : list PathSegment) (v w : value) :
  (_parse (ZodNullable (ZodString [])) p v).2 = OK w ↔ w = v ∧ string_or_null v = true.
Proof.
  destruct v; simpl; split; try (intros [_ ?]; discriminate); try discriminate;
    first [ by intros [= <-] | by intros [-> _] ].
Qed.

Lemma title_OK (p : list PathSegment) (v w : value) :
  (_parse (ZodOptional (ZodNullable (ZodString []))) p v).2 = OK w ↔
  w = v ∧ match v with VUndefined | VNull | VStr _ => true | _ => false end = true.
Proof.
  destruct v; simpl; split; try (intros [_ ?]; discriminate); try discriminate;
    first [ by intros [= <-] | by intros [-> _] ].
Qed.

Lemma url_OK (p : list PathSegment) (v w : value) :
  (_parse (ZodString [check_url]) p v).2 = OK w ↔
  w = v ∧ match v with VStr u => URL_ok u | _ => false end = true.
Proof.
  destruct v; simpl; split; try (intros [_ ?]; discriminate); try discriminate.
  - destruct (URL_ok s); simpl; [by intros [= <-] | discriminate].
  - intros [-> ->]. done.
Qed.

Lemma truthScore_OK (p : list PathSegment) (v w : value) :
  (_parse (ZodNullable (ZodNumber [check_int; check_min 0 true; check_max 100 true]))
     p v).2 = OK w ↔
  w = v ∧ null_or is_score_b v = true.
Proof.
  split.
  - intros Hw. assert (w = v) as ->.
    { by apply (plain_result _ p v w) in Hw. }
    split; [done|]. destruct v as [| | |n| | |]; try discriminate; [done|].
    change (is_score_b (VNum n) = true). apply is_score_b_spec.
    destruct n as [|b|q]; simpl in Hw; try discriminate;
      apply finish_OK in Hw as [Hchecks _]; by apply (score_checks p).
  - intros [-> Hv]. destruct v as [| | |n| | |]; try discriminate; [done|].
    change (is_score_b (VNum n) = true) in Hv.
    apply is_score_b_spec in Hv as (m & Hm & [= ->]).
    exact (f_equal snd (score_accepted p m Hm)).
Qed.

Lemma strings_OK (p : list PathSegment) (v w : value) :
  (_parse (ZodArray (ZodString [])) p v).2 = OK w ↔
  w = v ∧ array_of is_string v = true.
Proof.
  split.
  - intros Hw. assert (w = v) as -> by (by apply (plain_result _ p v w) in Hw).
    split; [done|]. destruct v as [| | | | |items|]; try discriminate.
    apply array_result in Hw as (ws & _ & Hall). simpl.
    apply forallb_forall. intros item Hitem. apply list_elem_of_In in Hitem.
    apply list_elem_of_lookup in Hitem as [i Hi].
    destruct (Forall2_lookup_l _ _ _ _ _ Hall Hi) as (w' & _ & Hres).
    by apply string_OK in Hres as [_ ?].
  - intros [-> Hv]. destruct v as [| | | | |items|]; try discriminate.
    apply array_result. exists items. split; [done|].
    simpl in Hv. rewrite forallb_forall in Hv.
    apply Forall2_same_length_lookup. split; [done|].
    intros i item w' Hi Hw'. assert (w' = item) as -> by congruence.
    apply string_OK. split; [done|]. apply Hv, list_elem_of_In.
    by apply list_elem_of_lookup_2 in Hi.
Qed.

Lemma strings_default_OK (p : list PathSegment) (v w : value) :
  (_parse (ZodDefault (ZodArray (ZodString [])) (VArr [])) p v).2 = OK w ↔
  w = default_empty v ∧ absent_or (array_of is_string) v = true.
Proof.
  change ((_parse (ZodDefault (ZodArray (ZodString [])) (VArr [])) p v).2)
    with ((_parse (ZodArray (ZodString [])) p (default_empty v)).2).
  rewrite strings_OK. by destruct v.
Qed.

Lemma field_parse_pair (p : list PathSegment) (fields : list (string * value))
    (k : string) (t : ZodType) :
  field_parse p fields (k, t) = _parse t (p ++ [Key k]) (get_field fields k).
Proof. reflexivity. Qed.

Lemma assign_defined (key : string) (v : value) (alwaysSet : bool)
    (finalObject : list (string * value)) :
  key ≠ "__proto__" → v ≠ VUndefined →
  assign key v alwaysSet finalObject = set_field key v finalObject.
Proof.
  intros Hkey Hv. unfold assign. apply eqb_string_false in Hkey. rewrite Hkey.
  destruct (String.eqb (typeof v) "undefined") eqn:E; [|done].
  by apply typeof_undefined in E.
Qed.

(** [sourceZ] accepts the valid sources, and returns them stripped. *)
Lemma source_result (p : list PathSegment) (v w : value) :
  (_parse sourceZ p v).2 = OK w ↔ valid_source v = true ∧ w = strip_source v.
Proof.
  destruct v as [| | | | | |fields]; try (split; [discriminate | intros [? _]; discriminate]).
  unfold sourceZ, z.object, z.optional, z.nullable, z.string. cbn [z.url app].
  split.
  - intros Hw.
    assert (is_OK (_parse (ZodObject
              [("title", ZodOptional (ZodNullable (ZodString [])));
               ("url", ZodString [check_url])]) p (VObj fields)).2) as Hok by (by eexists).
    apply object_accepted_iff in Hok.
    apply Forall_cons in Hok as [[wt Htitle] Hok].
    apply Forall_cons in Hok as [[wu Hurl] _].
    rewrite field_parse_pair in Htitle, Hurl.
    pose proof Htitle as Htitle'. pose proof Hurl as Hurl'.
    apply title_OK in Htitle' as [-> Ht]. apply url_OK in Hurl' as [-> Hu].
    split; [simpl; by rewrite Ht, Hu|].
    apply object_result in Hw as ->. cbn [map fst]. rewrite !field_parse_pair.
    rewrite Htitle, Hurl. unfold assigned. cbn [fold_left fst snd result_value].
    rewrite (assign_defined "url");
      [|done|by destruct (get_field fields "url")].
    unfold assign, has_key, get_field. simpl.
    destruct (assoc "title" fields) as [t|]; simpl.
    + by rewrite orb_true_r.
    + done.
  - intros [Hv ->]. simpl in Hv. apply andb_true_iff in Hv as [Ht Hu].
    rewrite parse_object. cbn [map fst]. rewrite !field_parse_pair.
    assert ((_parse (ZodOptional (ZodNullable (ZodString []))) (p ++ [Key "title"])
               (get_field fields "title")).2 = OK (get_field fields "title")) as ->
      by (by apply title_OK).
    assert ((_parse (ZodString [check_url]) (p ++ [Key "url"])
               (get_field fields "url")).2 = OK (get_field fields "url")) as ->
      by (by apply url_OK).
    simpl. rewrite (assign_defined "url");
      [|done|by destruct (get_field fields "url")].
    unfold assign, has_key, get_field. simpl.
    destruct (assoc "title" fields) as [t|]; simpl.
    + by rewrite orb_true_r.
    + done.
Qed.

Lemma Forall2_function {A B : Type} (P : A → Prop) (f : A → B) (l : list A)
    (ws : list B) :
  Forall2 (λ x y, P x ∧ y = f x) l ws ↔ Forall P l ∧ ws = map f l.
Proof.
  split.
  - induction 1 as [|x y l ws [Hx ->] _ [IH ->]]; [done|].
    split; [by constructor | done].
  - intros [Hall ->]. induction Hall as [|x l Hx _ IH]; constructor; auto.
Qed.

Lemma sources_default_OK (p : list PathSegment) (v w : value) :
  (_parse (ZodDefault (ZodArray sourceZ) (VArr [])) p v).2 = OK w ↔
  absent_or (array_of valid_source) v = true ∧ w = strip_sources v.
Proof.
  change ((_parse (ZodDefault (ZodArray sourceZ) (VArr [])) p v).2)
    with ((_parse (ZodArray sourceZ) p (default_empty v)).2).
  assert (∀ items,
            (_parse (ZodArray sourceZ) p (VArr items)).2 = OK w ↔
            forallb valid_source items = true ∧ w = VArr (map strip_source items))
    as Harray.
  { intros items. rewrite array_result. split.
    - intros (ws & -> & Hall).
      assert (Forall2 (λ item w', valid_source item = true ∧ w' = strip_source item)
                items ws) as Hall'.
      { eapply Forall2_impl; [exact Hall|]. intros item w' Hres. simpl in Hres.
        by apply (source_result p item w'). }
      apply Forall2_function in Hall' as [Hvalid ->]. split; [|done].
      apply forallb_forall. intros item Hitem. rewrite Forall_forall in Hvalid.
      by apply Hvalid, list_elem_of_In.
    - intros [Hvalid ->]. eexists. split; [done|].
      apply (Forall2_impl (λ item w', valid_source item = true ∧ w' = strip_source item)).
      + apply Forall2_function. split; [|done]. apply Forall_forall.
        intros item Hitem. rewrite forallb_forall in Hvalid.
        by apply Hvalid, list_elem_of_In.
      + intros item w' Hres. simpl in Hres. by apply (source_result p item w'). }
  destruct v as [| | | | |items|]; simpl default_empty;
    try (split; [discriminate | intros [? _]; discriminate]).
  - apply (Harray []).
  - apply (Harray items).
Qed.

(** The nine properties of [factCheckZ], each with what it accepts and
    what it returns. *)
Lemma factCheckZ_fields (fields : list (string * value)) :
  Forall (λ kt, is_OK (field_parse [] fields kt).2) (shape_of factCheckZ) ↔
  valid_candidate (VObj fields) = true.
Proof.
  unfold factCheckZ, z.object, z.nullable, z.string, z.array, z.default, z.number.
  cbn [shape_of z.int z.min z.max z.addCheck app].
  rewrite !Forall_cons, Forall_nil. rewrite !field_parse_pair.
  unfold valid_candidate. rewrite !andb_true_iff. unfold is_OK.
  setoid_rewrite nullable_string_OK. setoid_rewrite strings_default_OK.
  setoid_rewrite truthScore_OK. setoid_rewrite string_OK.
  setoid_rewrite sources_default_OK.
  split.
  - intros ([? [_ ?]] & [? [_ ?]] & [? [_ ?]] & [? [_ ?]] & [? [_ ?]] & [? [_ ?]]
            & [? [_ ?]] & [? [_ ?]] & [? [? _]] & _).
    by repeat split.
  - intros ((((((((? & ?) & ?) & ?) & ?) & ?) & ?) & ?) & ?).
    repeat split; eauto.
Qed.

Lemma factCheckZ_result (fields : list (string * value)) (r : value) :
  (_parse factCheckZ [] (VObj fields)).2 = OK r → r = validated (VObj fields).
Proof.
  intros Hr.
  assert (is_OK (_parse factCheckZ [] (VObj fields)).2) as Hok by (by eexists).
  apply object_accepted_iff in Hok.
  apply object_result in Hr as ->.
  revert Hok.
  unfold factCheckZ, z.object, z.nullable, z.string, z.array, z.default, z.number.
  cbn [shape_of z.int z.min z.max z.addCheck app map fst].
  rewrite !Forall_cons, Forall_nil. rewrite !field_parse_pair.
  intros ([w1 H1] & [w2 H2] & [w3 H3] & [w4 H4] & [w5 H5] & [w6 H6]
          & [w7 H7] & [w8 H8] & [w9 H9] & _).
  rewrite H1, H2, H3, H4, H5, H6, H7, H8, H9.
  apply nullable_string_OK in H1 as [-> B1]. apply nullable_string_OK in H2 as [-> B2].
  apply strings_default_OK in H3 as [-> B3]. apply strings_default_OK in H4 as [-> B4].
  apply nullable_string_OK in H5 as [-> B5]. apply nullable_string_OK in H6 as [-> B6].
  apply truthScore_OK in H7 as [-> B7]. apply string_OK in H8 as [-> B8].
  apply sources_default_OK in H9 as [B9 ->].
  unfold assigned. cbn [fold_left fst snd result_value].
  rewrite !assign_defined; try done;
    match goal with
    | |- context [get_field fields ?k] =>
        destruct (get_field fields k); unfold strip_sources; simpl in *; done
    end.
Qed.

(** The validator, said directly: it accepts the valid candidates, and
    returns their nine properties. *)
Lemma factCheckZ_spec (c r : value) :
  safeParse factCheckZ c = inr r ↔ valid_candidate c = true ∧ r = validated c.
Proof.
  rewrite safeParse_inr.
  destruct c as [| | | | | |fields];
    try (split; [discriminate | intros [? _]; discriminate]).
  split.
  - intros Hr. split; [|by apply factCheckZ_result].
    apply factCheckZ_fields. apply (object_accepted_iff (shape_of factCheckZ)).
    by eexists.
  - intros [Hvalid ->]. apply factCheckZ_fields in Hvalid.
    apply (object_accepted_iff (shape_of factCheckZ)) in Hvalid as [r Hr].
    change (ZodObject (shape_of factCheckZ)) with factCheckZ in Hr.
    by rewrite (factCheckZ_result fields r Hr) in Hr.
Qed.
End Candidates.

(** ** What the validator accepts and returns *)

Section ValidatorSpecification.
Context `{Platform}.

Lemma strip_source_SourceLink (v : value) :
  valid_source v = true → SourceLink (strip_source v) = true.
Proof.
  destruct v as [| | | | | |fields]; try discriminate. simpl.
  unfold get_field. intros Hv. apply andb_true_iff in Hv as [Ht Hu].
  destruct (assoc "title" fields) as [t|]; simpl in *.
  - rewrite Ht. simpl. by destruct (default VUndefined (assoc "url" fields)).
  - by destruct (default VUndefined (assoc "url" fields)).
Qed.

Lemma validated_FactCheckResult (c : value) :
  valid_candidate c = true → FactCheckResult (validated c) = true.
Proof.
  destruct c as [| | | | | |fields]; try discriminate.
  unfold valid_candidate. rewrite !andb_true_iff.
  intros ((((((((B1 & B2) & B3) & B4) & B5) & B6) & B7) & B8) & B9).
  unfold validated, FactCheckResult, get, get_field in *.
  cbn [assoc String.eqb Ascii.eqb Bool.eqb default id].
  rewrite B1, B2, B5, B6, B8. simpl andb.
  assert (array_of is_string
            (default_empty (default VUndefined (assoc "keyNumbers" fields))) = true)
    as -> by (by destruct (default VUndefined (assoc "keyNumbers" fields))).
  assert (array_of is_string
            (default_empty (default VUndefined (assoc "measurableFacts" fields))) = true)
    as -> by (by destruct (default VUndefined (assoc "measurableFacts" fields))).
  assert (number_or_null (default VUndefined (assoc "truthScore" fields)) = true) as ->.
  { by destruct (default VUndefined (assoc "truthScore" fields)) as [| | |[| |]| | |]. }
  simpl andb.
  destruct (default VUndefined (assoc "sources" fields)) as [| | | | |items|]; try done.
  unfold strip_sources. simpl. simpl in B9.
  rewrite forallb_forall in B9. apply forallb_forall. intros w Hw.
  apply in_map_iff in Hw as (item & <- & Hitem). by apply strip_source_SourceLink, B9.
Qed.

(** X1. The validator accepts exactly the valid candidates: the objects
    in which [productName], [company], [category] and [briefContext] are
    present and each [null] or a string, [keyNumbers] and
    [measurableFacts] are absent or arrays of strings, [truthScore] is
    [null] or an integer from 0 to 100, [report] is a string, and
    [sources] is absent or an array of objects with a [url] that parses
    as a URL and a [title] that is absent, [null] or a string.  It
    returns the nine properties in the order of the schema, unchanged
    but for the absent arrays, which become empty, and the sources, which
    keep their [title] and [url] only. *)
Theorem validator_specification (c r : value) :
  safeParse factCheckZ c = inr r ↔ valid_candidate c = true ∧ r = validated c.
Proof. apply factCheckZ_spec. Qed.

(** X2. [sourceZ] accepts exactly the objects with a [url] that is a
    string the [URL] constructor parses and a [title] that is absent,
    [null] or a string, and returns the [title], if the object has one,
    and the [url], without any other property. *)
Theorem source_specification (v w : value) :
  safeParse sourceZ v = inr w ↔ valid_source v = true ∧ w = strip_source v.
Proof. rewrite safeParse_inr. apply source_result. Qed.

(** X3. Every result the validator returns has the type
    [FactCheckResult] of [lib/types.ts]. *)
Theorem validated_has_type_FactCheckResult (c r : value) :
  safeParse factCheckZ c = inr r → FactCheckResult r = true.
Proof.
  intros Hr. apply factCheckZ_spec in Hr as [Hvalid ->].
  by apply validated_FactCheckResult.
Qed.

(** X4. The nullable properties are required: a candidate object that
    leaves out [productName], [company], [category], [briefContext] or
    [truthScore] is rejected with the issue "Required" at that key, even
    though [null] is accepted there. *)
Theorem nullable_keys_required (fields : list (string * value)) (k : string) :
  k ∈ ["productName"; "company"; "category"; "briefContext"; "truthScore"] →
  assoc k fields = None →
  ∃ issues,
    safeParse factCheckZ (VObj fields) = inl issues
    ∧ {| code := invalid_type; path := [Key k]; message := "Required" |} ∈ issues.
Proof.
  intros Hk Habsent.
  assert (∃ t, (k, t) ∈ shape_of factCheckZ
               ∧ field_parse [] fields (k, t)
                 = ([{| code := invalid_type; path := [Key k]; message := "Required" |}],
                    INVALID)) as (t & Ht & Hparse).
  { setoid_rewrite field_parse_pair. unfold get_field. rewrite Habsent. simpl default.
    repeat (apply elem_of_cons in Hk as [->|Hk]); [..|by apply elem_of_nil in Hk].
    - exists (z.string |> z.nullable). split; [simpl; left | reflexivity].
    - exists (z.string |> z.nullable). split; [simpl; right; left | reflexivity].
    - exists (z.string |> z.nullable). split; [simpl; do 4 right; left | reflexivity].
    - exists (z.string |> z.nullable). split; [simpl; do 5 right; left | reflexivity].
    - exists (z.number |> z.int |> z.min 0 |> z.max 100 |> z.nullable).
      split; [simpl; do 6 right; left | reflexivity]. }
  destruct (object_rejected (shape_of factCheckZ) fields (k, t) Ht)
    as (issues & Hrej & Hissues).
  - rewrite Hparse. intros [v Hv]. discriminate.
  - exists issues. split; [exact Hrej|]. apply Hissues. rewrite Hparse. left.
Qed.
End ValidatorSpecification.

(** * More of the handler *)

Lemma flatten_step_formErrors (acc : FlattenedError) (sub : ZodIssue) :
  formErrors (flatten_step acc sub) =
    formErrors acc ++ match path sub with [] => [message sub] | _ => [] end.
Proof.
  unfold flatten_step. destruct (path sub); simpl; [done | by rewrite app_nil_r].
Qed.

(** The form errors are the messages of the issues with an empty path. *)
Lemma flatten_formErrors (issues : list ZodIssue) :
  formErrors (flatten issues) =
    map message (List.filter (λ i, match path i with [] => true | _ => false end) issues).
Proof.
  unfold flatten.
  assert (∀ acc,
            formErrors (fold_left flatten_step issues acc)
            = formErrors acc
              ++ map message
                   (List.filter (λ i, match path i with [] => true | _ => false end)
                      issues)) as Hfold.
  { induction issues as [|sub issues IH]; intros acc; simpl; [by rewrite app_nil_r|].
    rewrite IH, flatten_step_formErrors. destruct (path sub); simpl.
    - by rewrite <- app_assoc.
    - by rewrite app_nil_r. }
  by rewrite Hfold.
Qed.

(** A flattened error of at least one issue holds at least one message. *)
Lemma flatten_not_empty (issues : list ZodIssue) :
  issues ≠ [] →
  formErrors (flatten issues) ≠ []
  ∨ ∃ k msgs, fieldErrors (flatten issues) !! k = Some msgs ∧ msgs ≠ [].
Proof.
  destruct issues as [|sub issues]; [done|]. intros _.
  destruct (path sub) as [|seg rest] eqn:Hpath.
  - left. rewrite flatten_formErrors. simpl. by rewrite Hpath.
  - right. exists (segment_key seg). rewrite flatten_fieldErrors. simpl.
    unfold at_key at 1. rewrite Hpath, String.eqb_refl. simpl. eexists. split; done.
Qed.

Section HandlerOutcomes.
Context `{Platform} `{Service}.

Lemma POST_on_image (req : Request) (image : string) (log : list CreateParams) :
  request_image req = Some image →
  POST req log =
    let log' := log ++ [create_params (VStr image)] in
    match responses_create (create_params (VStr image)) with
    | inl msg => (log', inr (internal_error msg))
    | inr response =>
        match JSON_parse (default "undefined" (output_text response)) with
        | inl msg => (log', inr (internal_error (Some msg)))
        | inr parsed =>
            match safeParse factCheckZ parsed with
            | inl issues =>
                (log', inr (NextResponse_json (ErrorFields (flatten issues)) 422))
            | inr validated => (log', inr (NextResponse_json (Result validated) 200))
            end
        end
    end.
Proof.
  unfold request_image. intros Himage. rewrite POST_steps.
  destruct (json req) as [msg|parsed_body]; [discriminate|].
  assert (parsed_body ≠ VNull ∧ parsed_body ≠ VUndefined) as [Hnull Hundef].
  { by destruct parsed_body. }
  rewrite destructure_defined by done.
  assert (get parsed_body "image" = VStr image
          ∧ String.prefix "data:image" image = true) as [-> Hprefix].
  { destruct parsed_body; try done;
      destruct (get _ "image") as [| | | |s| |]; try discriminate;
      destruct (String.prefix "data:image" s) eqn:E; try discriminate;
      by injection Himage as ->. }
  by rewrite data_url_accepted.
Qed.

Lemma POST_without_image (req : Request) (log : list CreateParams) :
  request_image req = None →
  ∃ r, POST req log = (log, inr r) ∧ (status r = 400 ∨ status r = 500).
Proof.
  unfold request_image. intros Himage. rewrite POST_steps.
  destruct (json req) as [msg|parsed_body]; [eexists; split; [done | by right]|].
  destruct parsed_body as [| | | | | |fields];
    try (eexists; split; [reflexivity | by right]);
    try (eexists; split; [reflexivity | by left]).
  rewrite destructure_defined by done.
  rewrite not_data_url_refused; [eexists; split; [done | by left]|].
  intros s Hs. rewrite Hs in Himage.
  by destruct (String.prefix "data:image" s).
Qed.

(** X5. When every step succeeds (a data-URL image, a reply of the
    service, a reply that parses as JSON to a valid candidate) the
    response is 200 with the validated result, and the service was
    called exactly once, with the image of the request. *)
Theorem valid_reply_is_returned (req : Request) (image : string)
    (response : Response) (parsed : value) (log : list CreateParams) :
  request_image req = Some image →
  responses_create (create_params (VStr image)) = inr response →
  JSON_parse (default "undefined" (output_text response)) = inr parsed →
  valid_candidate parsed = true →
  POST req log =
    (log ++ [create_params (VStr image)],
     inr (NextResponse_json (Result (validated parsed)) 200)).
Proof.
  intros Himage Hcreate Hparse Hvalid.
  rewrite (POST_on_image req image log Himage). simpl. rewrite Hcreate, Hparse.
  by rewrite (proj2 (factCheckZ_spec parsed (validated parsed)) (conj Hvalid eq_refl)).
Qed.

(** X6. A response with status 200 always carries a validated result: a
    value of type [FactCheckResult] that is what the validator returns on
    some valid candidate. *)
Theorem ok_response_is_validated (req : Request) (log log' : list CreateParams)
    (r : NextResponse) :
  POST req log = (log', inr r) →
  status r = 200 →
  ∃ parsed,
    valid_candidate parsed = true
    ∧ body r = Result (validated parsed)
    ∧ FactCheckResult (validated parsed) = true.
Proof.
  intros Hpost Hok.
  destruct (request_image req) as [image|] eqn:Himage.
  - rewrite (POST_on_image req image log Himage) in Hpost. simpl in Hpost.
    destruct (responses_create _) as [msg|response];
      [injection Hpost as _ <-; discriminate|].
    destruct (JSON_parse _) as [msg|parsed]; [injection Hpost as _ <-; discriminate|].
    destruct (safeParse factCheckZ parsed) as [issues|v] eqn:Hv;
      [injection Hpost as _ <-; discriminate|].
    injection Hpost as _ <-. apply factCheckZ_spec in Hv as [Hvalid ->].
    exists parsed. split; [done|]. split; [done|]. by apply validated_FactCheckResult.
  - destruct (POST_without_image req log Himage) as (r' & Hr' & Hst).
    rewrite Hr' in Hpost. injection Hpost as _ <-. destruct Hst as [Hst|Hst];
      rewrite Hst in Hok; discriminate.
Qed.

(** X7. The service is called once when the request carries a data-URL
    image and not at all otherwise, whatever happens later; without a
    call the status is 400 or 500, and in every case the handler answers
    with one of the statuses 200, 400, 422 and 500. *)
Theorem one_call_per_image (req : Request) (log : list CreateParams) :
  ∃ r,
    POST req log =
      (log ++ match request_image req with
              | Some image => [create_params (VStr image)]
              | None => []
              end,
       inr r)
    ∧ (request_image req = None → status r = 400 ∨ status r = 500)
    ∧ status r ∈ [200; 400; 422; 500].
Proof.
  destruct (request_image req) as [image|] eqn:Himage.
  - rewrite (POST_on_image req image log Himage). simpl.
    destruct (responses_create _) as [msg|response].
    { eexists. split; [done|]. split; [done|]. simpl. do 3 right. left. }
    destruct (JSON_parse _) as [msg|parsed].
    { eexists. split; [done|]. split; [done|]. simpl. do 3 right. left. }
    destruct (safeParse factCheckZ parsed) as [issues|v].
    { eexists. split; [done|]. split; [done|]. simpl. do 2 right. left. }
    eexists. split; [done|]. split; [done|]. simpl. left.
  - destruct (POST_without_image req log Himage) as (r & Hr & Hst).
    exists r. rewrite app_nil_r. split; [done|]. split; [done|].
    destruct Hst as [->| ->]; [right; left | do 3 right; left].
Qed.

(** X8. When the inference call fails, the response is the internal
    error with the message of the failure, or "Unexpected server error"
    when it has none; the call is not tried again. *)
Theorem service_failure_is_internal_error (req : Request) (image : string)
    (msg : option string) (log : list CreateParams) :
  request_image req = Some image →
  responses_create (create_params (VStr image)) = inl msg →
  POST req log =
    (log ++ [create_params (VStr image)],
     inr (NextResponse_json
            (ErrorMessage
               match msg with
               | Some m => if String.eqb m "" then "Unexpected server error" else m
               | None => "Unexpected server error"
               end)
            500)).
Proof.
  intros Himage Hcreate. rewrite (POST_on_image req image log Himage). simpl.
  by rewrite Hcreate.
Qed.

(** X9. A response with status 422 is never empty: its body is a
    flattened error with a form error or with a field that has at least
    one message. *)
Theorem validation_failure_names_a_problem (req : Request)
    (log log' : list CreateParams) (r : NextResponse) :
  POST req log = (log', inr r) →
  status r = 422 →
  ∃ f, body r = ErrorFields f
       ∧ (formErrors f ≠ []
          ∨ ∃ k msgs, fieldErrors f !! k = Some msgs ∧ msgs ≠ []).
Proof.
  intros Hpost Hst.
  destruct (request_image req) as [image|] eqn:Himage.
  - rewrite (POST_on_image req image log Himage) in Hpost. simpl in Hpost.
    destruct (responses_create _) as [msg|response];
      [injection Hpost as _ <-; discriminate|].
    destruct (JSON_parse _) as [msg|parsed]; [injection Hpost as _ <-; discriminate|].
    destruct (safeParse factCheckZ parsed) as [issues|v] eqn:Hv;
      [|injection Hpost as _ <-; discriminate].
    injection Hpost as _ <-. eexists. split; [done|].
    apply flatten_not_empty. unfold safeParse in Hv.
    pose proof (parse_not_OK_issue factCheckZ [] parsed) as Hne.
    destruct (_parse factCheckZ [] parsed) as [iss [|w|w]]; simpl in *;
      try discriminate; injection Hv as <-; apply Hne; intros [? ?]; discriminate.
  - destruct (POST_without_image req log Himage) as (r' & Hr' & Hst').
    rewrite Hr' in Hpost. injection Hpost as _ <-. destruct Hst' as [Hst'|Hst'];
      rewrite Hst' in Hst; discriminate.
Qed.

(** X10. When the reply is JSON but not an object ([null], a number, a
    string, an array), the response is 422 with the single form error
    "Expected object, received ..." and no field error. *)
Theorem non_object_reply_is_form_error (req : Request) (image : string)
    (response : Response) (parsed : value) (log : list CreateParams) :
  request_image req = Some image →
  responses_create (create_params (VStr image)) = inr response →
  JSON_parse (default "undefined" (output_text response)) = inr parsed →
  is_json_parsed parsed = true →
  (∀ fields, parsed ≠ VObj fields) →
  POST req log =
    (log ++ [create_params (VStr image)],
     inr (NextResponse_json
            (ErrorFields
               {| formErrors :=
                    ["Expected object, received " +:+ type_name (getParsedType parsed)];
                  fieldErrors := ∅ |})
            422)).
Proof.
  intros Himage Hcreate Hparse Hjson Hobject.
  rewrite (POST_on_image req image log Himage). simpl. rewrite Hcreate, Hparse.
  destruct parsed as [| | | | | |fields]; try done.
  by destruct (Hobject fields).
Qed.
End HandlerOutcomes.

(** * The page *)

(** ** ResultCard *)

Lemma number_compare_of_Z (a b : Z) :
  number_compare (number_of_Z a) (number_of_Z b) = Some (a ?= b)%Z.
Proof.
  unfold number_compare, number_of_Z, Qccompare, Qcompare.
  rewrite !this_number_of_Z. simpl. by rewrite !Z.mul_1_r.
Qed.

Lemma Qccompare_antisym (p q : Qc) : (q ?= p)%Qc = CompOpp (p ?= q)%Qc.
Proof. unfold Qccompare. by rewrite <- Qcompare_antisym. Qed.

Lemma Qccompare_refl (p : Qc) : (p ?= p)%Qc = Eq.
Proof. by apply Qceq_alt. Qed.

(** X11. The score shown is between 0 and 100 whatever number
    [truthScore] holds, infinities included, and 0 when it is [null];
    only NaN is not clamped: it is shown as NaN. *)
Theorem score_is_clamped (truthScore : option number) :
  (truthScore = Some NaN ∧ score truthScore = NaN)
  ∨ (truthScore ≠ Some NaN
     ∧ number_le (number_of_Z 0) (score truthScore) = true
     ∧ number_le (score truthScore) (number_of_Z 100) = true).
Proof.
  destruct truthScore as [[|[|]|q]|].
  - left. done.
  - right. split; [done|]. by vm_compute.
  - right. split; [done|]. by vm_compute.
  - right. split; [done|].
    assert (score (Some (Finite q))
            = match (Q2Qc (inject_Z 100) ?= q)%Qc with
              | Gt => match (Q2Qc (inject_Z 0) ?= q)%Qc with
                      | Lt => Finite q
                      | _ => number_of_Z 0
                      end
              | _ => number_of_Z 100
              end) as ->.
    { unfold score, Math_min. simpl default.
      change (number_compare (number_of_Z 100) (Finite q))
        with (Some (Q2Qc (inject_Z 100) ?= q)%Qc).
      destruct (Q2Qc (inject_Z 100) ?= q)%Qc; by vm_compute. }
    destruct (Q2Qc (inject_Z 100) ?= q)%Qc eqn:Hhi; try (split; by vm_compute).
    destruct (Q2Qc (inject_Z 0) ?= q)%Qc eqn:Hlo; try (split; by vm_compute).
    split; unfold number_le.
    + change (number_compare (number_of_Z 0) (Finite q))
        with (Some (Q2Qc (inject_Z 0) ?= q)%Qc). by rewrite Hlo.
    + change (number_compare (Finite q) (number_of_Z 100))
        with (Some (q ?= Q2Qc (inject_Z 100))%Qc).
      by rewrite Qccompare_antisym, Hhi.
  - right. split; [done|]. by vm_compute.
Qed.

(** The score of a [truthScore] that is [null] or an integer from 0 to
    100. *)
Lemma score_of_truthScore (r : value) :
  (get r "truthScore" = VNull → score (truthScore_of r) = number_of_Z 0)
  ∧ (∀ n : Z, (0 ≤ n ≤ 100)%Z → get r "truthScore" = VNum (number_of_Z n) →
              score (truthScore_of r) = number_of_Z n).
Proof.
  unfold truthScore_of. split.
  - intros ->. by vm_compute.
  - intros m Hm ->. unfold score, Math_min, Math_max. simpl default.
    rewrite number_compare_of_Z.
    destruct (Z.compare_spec 100 m) as [Heq| |]; try lia.
    + subst m. by vm_compute.
    + rewrite number_compare_of_Z.
      destruct (Z.compare_spec 0 m) as [Heq| |]; try lia; [by subst m | done].
Qed.

Section ValidatedScore.
Context `{Platform}.

Lemma valid_truthScore (c : value) :
  valid_candidate c = true →
  get (validated c) "truthScore" = VNull
  ∨ ∃ n : Z, (0 ≤ n ≤ 100)%Z ∧ get (validated c) "truthScore" = VNum (number_of_Z n).
Proof.
  intros Hvalid. destruct c as [| | | | | |fields]; try discriminate.
  unfold valid_candidate in Hvalid. rewrite !andb_true_iff in Hvalid.
  destruct Hvalid as [[[_ Hscore] _] _].
  change (get (validated (VObj fields)) "truthScore")
    with (get_field fields "truthScore").
  destruct (get_field fields "truthScore") as [| | |n| | |]; try discriminate.
  - by left.
  - right. change (is_score_b (VNum n) = true) in Hscore.
    apply is_score_b_spec in Hscore as (m & Hm & [= ->]). by exists m.
Qed.

(** X12. For a validated result the clamp changes nothing: the score
    shown is the [truthScore] of the result, and 0 when that is [null]. *)
Theorem validated_score_is_shown (c r : value) :
  safeParse factCheckZ c = inr r →
  (get r "truthScore" = VNull ∧ score (truthScore_of r) = number_of_Z 0)
  ∨ (∃ n : Z, (0 ≤ n ≤ 100)%Z
              ∧ get r "truthScore" = VNum (number_of_Z n)
              ∧ score (truthScore_of r) = number_of_Z n).
Proof.
  intros Hr. apply factCheckZ_spec in Hr as [Hvalid ->].
  destruct (score_of_truthScore (validated c)) as [Hnull Hnumber].
  destruct (valid_truthScore c Hvalid) as [Hs|(n & Hn & Hs)].
  - left. split; [done|]. by apply Hnull.
  - right. exists n. split; [done|]. split; [done|]. by apply Hnumber.
Qed.
End ValidatedScore.

(** ** analyze *)

Lemma or_else_not_empty (a : option string) (b : string) :
  b ≠ "" → or_else a b ≠ "".
Proof.
  intros Hb. destruct a as [m|]; simpl; [|done].
  destruct (String.eqb m "") eqn:E; [done|]. by apply eqb_string_false in E.
Qed.

Lemma or_else_Some (m b : string) : m ≠ "" → or_else (Some m) b = m.
Proof. intros Hm. simpl. apply eqb_string_false in Hm. by rewrite Hm. Qed.

Lemma keys_json_item (fields : list (string * value)) :
  own_keys (json_item (VObj fields)) ⊆ map fst fields.
Proof.
  simpl. induction fields as [|[k v] rest IH]; [done|].
  intros x Hx. destruct v; simpl in Hx;
    first [ apply elem_of_cons in Hx as [->|Hx]; [left | right; by apply IH]
          | right; by apply IH ].
Qed.

Section Analyze.
Context `{Numerals}.

Lemma get_error_json_object (fields : list (string * value)) :
  "error" ∉ map fst fields →
  get_error (json_item (VObj fields)) = inr VUndefined.
Proof.
  intros Hkey.
  assert (get (json_item (VObj fields)) "error" = VUndefined) as Hget.
  { apply get_not_own_key. intros Hin. by apply keys_json_item in Hin. }
  destruct (json_item (VObj fields)) eqn:E; try (simpl in E; discriminate).
  unfold get_error. by rewrite Hget.
Qed.


(** X13. An analysis that was started ends with the loading flag down and
    with either a result and no error, or no result and an error message
    that is not empty; the image is untouched. *)
Theorem analysis_ends_with_result_or_error (s s1 : PageState) (sent : value)
    (f : FetchResult) :
  analyze_start s = (s1, Some sent) →
  loading (analyze_settle f s1) = false
  ∧ imageDataUrl (analyze_settle f s1) = imageDataUrl s
  ∧ ((∃ data, result (analyze_settle f s1) = Some data
              ∧ error (analyze_settle f s1) = None)
     ∨ (result (analyze_settle f s1) = None
        ∧ ∃ m, error (analyze_settle f s1) = Some m ∧ m ≠ "")).
Proof.
  unfold analyze_start. intros Hstart.
  destruct (imageDataUrl s) as [url|] eqn:Hurl; [|discriminate].
  destruct (String.eqb url ""); [discriminate|]. injection Hstart as <- _.
  unfold analyze_settle. destruct (analyze_try f) as [msg|data]; simpl.
  - split; [done|]. split; [done|]. right. split; [done|]. eexists. split; [done|].
    by apply or_else_not_empty.
  - split; [done|]. split; [done|]. left. by eexists.
Qed.

(** X14. A response that is not ok and brings no error text of its own
    (a body that is not JSON, or a JSON value other than [null] without a
    truthy [error]) is shown as "Server returned" followed by the
    status. *)
Theorem error_without_text_shows_status (st : nat) (res_json : option string + value)
    (s : PageState) :
  res_ok st = false →
  match res_json with
  | inl _ => True
  | inr v => v ≠ VNull ∧ v ≠ VUndefined ∧ to_boolean (get v "error") = false
  end →
  analyze_settle (fetch_response st res_json) s
  = setLoading false (setError (Some ("Server returned " +:+ show_nat st)) s).
Proof.
  intros Hok Hbody. unfold analyze_settle, analyze_try. rewrite Hok. simpl negb.
  cbv iota.
  assert (get_error match res_json with inl _ => VObj [] | inr v => v end
          = inr (get match res_json with inl _ => VObj [] | inr v => v end "error")
          ∧ to_boolean (get match res_json with inl _ => VObj [] | inr v => v end "error")
            = false) as [-> ->].
  { destruct res_json as [msg|v]; [done|]. destruct Hbody as (Hn & Hu & Hfalsy).
    split; [by destruct v | done]. }
  done.
Qed.

(** X15. While an analysis is running the Analyze button is disabled and
    the Enter shortcut does nothing; once it has settled, with the image
    still in place, both are available again. *)
Theorem one_analysis_at_a_time (s s1 : PageState) (sent : value) (f : FetchResult) :
  analyze_start s = (s1, Some sent) →
  analyze_disabled s1 = true
  ∧ handleKeyPress "Enter" s1 = no_action
  ∧ analyze_disabled (analyze_settle f s1) = false
  ∧ handleKeyPress "Enter" (analyze_settle f s1) = run_analyze.
Proof.
  unfold analyze_start. intros Hstart.
  destruct (imageDataUrl s) as [url|] eqn:Hurl; [|discriminate].
  destruct (String.eqb url "") eqn:Hempty; [discriminate|]. injection Hstart as <- _.
  unfold analyze_disabled, handleKeyPress, analyze_settle.
  destruct (analyze_try f) as [msg|data]; simpl; rewrite Hurl, Hempty; simpl;
    by rewrite ?orb_true_r.
Qed.
End Analyze.

(** ** The route and the page together *)

Section RouteAndPage.
Context `{Platform} `{Service} `{Numerals}.

(** The responses of the handler: an error with a text that is not empty
    and status 400 or 500, field errors with status 422, or a validated
    result with status 200. *)
Lemma POST_response_shape (req : Request) (log log' : list CreateParams)
    (r : NextResponse) :
  POST req log = (log', inr r) →
  (∃ m, body r = ErrorMessage m ∧ m ≠ "" ∧ res_ok (status r) = false)
  ∨ (∃ f, body r = ErrorFields f ∧ res_ok (status r) = false)
  ∨ (∃ parsed, body r = Result (validated parsed) ∧ valid_candidate parsed = true
               ∧ status r = 200).
Proof.
  rewrite POST_steps. intros Hpost.
  assert (∀ msg, ∃ m, body (internal_error msg) = ErrorMessage m ∧ m ≠ ""
                       ∧ res_ok (status (internal_error msg)) = false) as Hinternal.
  { intros msg. eexists. split; [done|]. split; [by apply or_else_not_empty | done]. }
  destruct (json req) as [msg|parsed_body].
  { injection Hpost as _ <-. left. apply Hinternal. }
  destruct (destructure parsed_body "image" log) as [log1 [[issues|msg]|image]].
  { injection Hpost as _ <-. right. left. by eexists. }
  { injection Hpost as _ <-. left. apply Hinternal. }
  destruct (_ || _).
  { injection Hpost as _ <-. left. eexists. split; [done|]. by split. }
  simpl in Hpost. destruct (responses_create _) as [msg|response].
  { injection Hpost as _ <-. left. apply Hinternal. }
  destruct (JSON_parse _) as [msg|parsed].
  { injection Hpost as _ <-. left. apply Hinternal. }
  destruct (safeParse factCheckZ parsed) as [issues|v] eqn:Hv.
  { injection Hpost as _ <-. right. left. by eexists. }
  injection Hpost as _ <-. right. right. apply factCheckZ_spec in Hv as [Hvalid ->].
  by exists parsed.
Qed.

(** What the [try] of [analyze] makes of an answer of the handler. *)
Lemma try_received (req : Request) (log log' : list CreateParams) (r : NextResponse) :
  POST req log = (log', inr r) →
  analyze_try (received r)
  = match body r with
    | ErrorMessage m => inl (Some m)
    | ErrorFields _ => inl (Some "[object Object]")
    | Result v => inr (json_item v)
    end.
Proof.
  intros Hpost. unfold received, analyze_try.
  destruct (POST_response_shape req log log' r Hpost)
    as [(m & -> & Hm & ->)|[(f & -> & ->)|(parsed & -> & Hvalid & ->)]]; simpl negb;
    cbv iota.
  - simpl. apply eqb_string_false in Hm. by rewrite Hm.
  - reflexivity.
  - simpl body_value. unfold validated.
    rewrite get_error_json_object; [done|].
    intros Hin. simpl in Hin.
    repeat (apply elem_of_cons in Hin as [Hin|Hin]; [discriminate|]).
    by apply elem_of_nil in Hin.
Qed.

(** X16. What the page shows for an answer of the handler: the text of
    the error for the statuses 400 and 500, the validated result as it
    comes out of the JSON text for 200, and, for the field errors of a
    422, the text "[object Object]", since the page builds an [Error]
    from the object. *)
Theorem answer_on_page (req : Request) (log log' : list CreateParams)
    (r : NextResponse) (s : PageState) :
  POST req log = (log', inr r) →
  analyze_settle (received r) s
  = setLoading false
      match body r with
      | ErrorMessage m => setError (Some m) s
      | ErrorFields _ => setError (Some "[object Object]") s
      | Result v => setResult (Some (json_item v)) s
      end.
Proof.
  intros Hpost. unfold analyze_settle. rewrite (try_received req log log' r Hpost).
  destruct (POST_response_shape req log log' r Hpost)
    as [(m & -> & Hm & _)|[(f & -> & _)|(parsed & -> & _)]]; [|done..].
  by rewrite or_else_Some.
Qed.

End RouteAndPage.

(** ** Choosing a file *)

Lemma prefix_append (a b : string) : String.prefix a (a +:+ b) = true.
Proof.
  induction a as [|c a IH]; simpl; [by destruct b|].
  destruct (Ascii.ascii_dec c c); [done|congruence].
Qed.

Lemma prefix_transitive (a b c : string) :
  String.prefix a b = true → String.prefix b c = true → String.prefix a c = true.
Proof.
  revert b c. induction a as [|x a IH]; intros b c Hab Hbc; [by destruct c|].
  destruct b as [|y b]; [done|]. destruct c as [|z c]; [done|].
  simpl in *. destruct (Ascii.ascii_dec x y) as [->|]; [|done].
  destruct (Ascii.ascii_dec y z) as [->|]; [|done]. by apply (IH b c).
Qed.

Lemma prefix_append_both (a b c : string) :
  String.prefix b c = true → String.prefix (a +:+ b) (a +:+ c) = true.
Proof.
  intros Hbc. induction a as [|x a IH]; simpl; [done|].
  destruct (Ascii.ascii_dec x x); [done|congruence].
Qed.

(** A data URL of an image type starts as the route requires. *)
Lemma image_type_data_url (t url : string) :
  String.prefix "image/" t = true →
  String.prefix ("data:" +:+ t) url = true →
  String.prefix "data:image" url = true.
Proof.
  intros Ht Hurl. apply (prefix_transitive _ ("data:" +:+ t)); [|done].
  apply (prefix_append_both "data:" "image" t).
  by apply (prefix_transitive _ "image/").
Qed.

Lemma prefix_not_empty (a s : string) :
  a ≠ "" → String.prefix a s = true → String.eqb s "" = false.
Proof. intros Ha Hs. destruct s; [by destruct a|done]. Qed.

(** X17. A file that the upload or the drop has handed to the reader
    passes the route's image test: with the data URL of the file's type
    in place, [analyze] sends a body, and the route finds in it the same
    URL as its image, so that the request reaches the inference call. *)
Theorem chosen_file_reaches_inference (f : File) (s s' : PageState) (url : string) :
  onFileUpload (Some f) s = (s', Some f) ∨ handleDrop (Some f) s = (s', Some f) →
  String.prefix ("data:" +:+ type f) url = true →
  ∃ sent,
    (analyze_start (reader_onload url s')).2 = Some sent
    ∧ request_image (request_of sent) = Some url.
Proof.
  intros Hchosen Hurl.
  assert (String.prefix "image/" (type f) = true) as Htype.
  { destruct Hchosen as [Hup|Hdrop].
    - unfold onFileUpload in Hup. destruct (Z.ltb _ _); [discriminate|].
      by destruct (String.prefix "image/" (type f)).
    - unfold handleDrop in Hdrop. by destruct (String.prefix "image/" (type f)). }
  pose proof (image_type_data_url _ _ Htype Hurl) as Hdata.
  assert (String.eqb url "" = false) as Hempty
    by by apply (prefix_not_empty "data:image").
  exists (VObj [("image", VStr url)]). unfold analyze_start, reader_onload.
  cbn [imageDataUrl setImageDataUrl]. rewrite Hempty. split; [done|].
  unfold request_image, request_of. cbn [json json_item get get_field assoc].
  change (get_field [("image", VStr url)] "image") with (VStr url). cbv beta iota.
  by rewrite Hdata.
Qed.

(** X18. The size limit of the upload is not applied to a drop: an image
    file above 10 MiB is refused by the upload with the message for
    large files, the picture and the result staying as they are, while
    the drop hands the same file to the reader and clears result and
    error. *)
Theorem drop_has_no_size_limit (f : File) (s : PageState) :
  (maxSize < size f)%Z →
  String.prefix "image/" (type f) = true →
  onFileUpload (Some f) s
  = (setError (Some "File too large. Please use an image under 10MB.") s, None)
  ∧ handleDrop (Some f) s = (setError None (setResult None s), Some f).
Proof.
  intros Hsize Htype. unfold onFileUpload, handleDrop. rewrite Htype.
  by apply Z.ltb_lt in Hsize as ->.
Qed.

(** X19. The upload reads a file exactly when it is at most 10 MiB
    (10485760 bytes, the bound included) and of an image type; every file
    the upload reads the drop reads too, and whatever either of them does
    the picture shown is the same as before. *)
Theorem upload_reads_small_images (f : File) (s : PageState) :
  ((onFileUpload (Some f) s).2 = Some f
   ↔ (size f ≤ 10485760)%Z ∧ String.prefix "image/" (type f) = true)
  ∧ ((onFileUpload (Some f) s).2 = Some f → (handleDrop (Some f) s).2 = Some f)
  ∧ imageDataUrl (onFileUpload (Some f) s).1 = imageDataUrl s
  ∧ imageDataUrl (handleDrop (Some f) s).1 = imageDataUrl s.
Proof.
  unfold onFileUpload, handleDrop.
  destruct (Z.ltb_spec maxSize (size f)) as [Hbig|Hsmall];
    destruct (String.prefix "image/" (type f)); simpl; unfold maxSize in *;
    repeat split; try done; try lia; intros; try done; try lia;
    by intuition (try discriminate; try lia).
Qed.

(** ** From the route's result to the ResultCard *)

Lemma json_item_cons (k : string) (w : value) (rest : list (string * value)) :
  json_item (VObj ((k, w) :: rest))
  = match w with
    | VUndefined => json_item (VObj rest)
    | _ => VObj ((k, json_item w) :: own_fields (json_item (VObj rest)))
    end.
Proof. by destruct w. Qed.

Lemma get_cons (k k' : string) (w : value) (rest : list (string * value)) :
  get (VObj ((k', w) :: rest)) k = if String.eqb k k' then w else get (VObj rest) k.
Proof. unfold get, get_field. simpl. by destruct (String.eqb k k'). Qed.

(** Reading a property of an object that went through JSON. *)
Lemma get_json_item (fields : list (string * value)) (k : string) :
  NoDup (map fst fields) →
  get (json_item (VObj fields)) k
  = match get_field fields k with
    | VUndefined => VUndefined
    | w => json_item w
    end.
Proof.
  induction fields as [|[k' w] rest IH]; [done|].
  intros Hnodup. apply NoDup_cons in Hnodup as [Hfresh Hnodup].
  specialize (IH Hnodup).
  assert (get (json_item (VObj rest)) k' = VUndefined) as Hk'.
  { apply get_not_own_key. intros Hin. by apply keys_json_item in Hin. }
  assert (VObj (own_fields (json_item (VObj rest))) = json_item (VObj rest)) as Hrest
    by done.
  rewrite json_item_cons.
  change (get_field ((k', w) :: rest) k) with (get (VObj ((k', w) :: rest)) k).
  rewrite get_cons. change (get (VObj rest) k) with (get_field rest k).
  destruct (String.eqb_spec k k') as [->|Hne].
  - destruct w; first [exact Hk' | by rewrite get_cons, String.eqb_refl].
  - apply String.eqb_neq in Hne.
    destruct w; first [exact IH | by rewrite get_cons, Hne, Hrest].
Qed.

Lemma FactCheckResult_object (fields : list (string * value)) :
  FactCheckResult (VObj fields)
  = string_or_null (get (VObj fields) "productName")
    && string_or_null (get (VObj fields) "company")
    && array_of is_string (get (VObj fields) "keyNumbers")
    && array_of is_string (get (VObj fields) "measurableFacts")
    && string_or_null (get (VObj fields) "category")
    && string_or_null (get (VObj fields) "briefContext")
    && number_or_null (get (VObj fields) "truthScore")
    && is_string (get (VObj fields) "report")
    && array_of SourceLink (get (VObj fields) "sources").
Proof. reflexivity. Qed.

Lemma strings_json_item (items : list value) :
  forallb is_string items = true → map json_item items = items.
Proof.
  induction items as [|x items IH]; [done|]. simpl. intros Hall.
  apply andb_true_iff in Hall as [Hx Hall]. rewrite IH by done. by destruct x.
Qed.

Section ResultOnPage.
Context `{Platform}.

Lemma sources_json_item (items : list value) :
  forallb valid_source items = true →
  forallb SourceLink (map json_item (map strip_source items)) = true.
Proof.
  induction items as [|x items IH]; [done|]. cbn [map forallb]. intros Hall.
  apply andb_true_iff in Hall as [Hx Hall]. rewrite IH by done.
  rewrite andb_true_r. clear IH Hall.
  destruct x as [| | | | | |fields]; try discriminate.
  unfold valid_source in Hx. apply andb_true_iff in Hx as [Htitle Hurl].
  unfold strip_source. unfold get_field in *.
  destruct (assoc "url" fields) as [[| | | |u| |]|]; try discriminate.
  destruct (assoc "title" fields) as [[| | | |t| |]|]; try discriminate; reflexivity.
Qed.

(** A validated result is still of type [FactCheckResult], with the same
    [truthScore], after the response body has been printed and read. *)
Lemma validated_json_item (c : value) :
  valid_candidate c = true →
  FactCheckResult (json_item (validated c)) = true
  ∧ get (json_item (validated c)) "truthScore" = get (validated c) "truthScore".
Proof.
  destruct c as [| | | | | |fields]; try discriminate.
  unfold valid_candidate. rewrite !andb_true_iff.
  intros ((((((((B1 & B2) & B3) & B4) & B5) & B6) & B7) & B8) & B9).
  unfold validated.
  assert (∀ F, NoDup (map fst F) →
            (string_or_null (get_field F "productName")
             && string_or_null (get_field F "company")
             && absent_or (array_of is_string) (get_field F "keyNumbers")
             && absent_or (array_of is_string) (get_field F "measurableFacts")
             && string_or_null (get_field F "category")
             && string_or_null (get_field F "briefContext")
             && null_or is_score_b (get_field F "truthScore")
             && is_string (get_field F "report")) = true →
            match get_field F "sources" with
            | VArr items => forallb SourceLink (map json_item items) = true
            | _ => False
            end →
            (∀ k, k ∈ ["keyNumbers"; "measurableFacts"] → get_field F k ≠ VUndefined) →
            FactCheckResult (json_item (VObj F)) = true
            ∧ get (json_item (VObj F)) "truthScore" = get_field F "truthScore")
    as Hgeneral.
  { intros F Hnodup HF Hsources Hdefined.
    rewrite !andb_true_iff in HF.
    destruct HF as (((((((F1 & F2) & F3) & F4) & F5) & F6) & F7) & F8).
    destruct (json_item (VObj F)) as [| | | | | |fields'] eqn:E;
      try (simpl in E; discriminate).
    rewrite FactCheckResult_object, <- E, !get_json_item by done.
    assert (get_field F "keyNumbers" ≠ VUndefined) as D3
      by (apply Hdefined; left).
    assert (get_field F "measurableFacts" ≠ VUndefined) as D4
      by (apply Hdefined; right; left).
    split.
    - repeat (apply andb_true_iff; split).
      + by destruct (get_field F "productName").
      + by destruct (get_field F "company").
      + destruct (get_field F "keyNumbers") as [| | | | |items|]; try done.
        simpl in *. by rewrite strings_json_item.
      + destruct (get_field F "measurableFacts") as [| | | | |items|]; try done.
        simpl in *. by rewrite strings_json_item.
      + by destruct (get_field F "category").
      + by destruct (get_field F "briefContext").
      + destruct (get_field F "truthScore") as [| | |[| |q]| | |]; done.
      + by destruct (get_field F "report").
      + destruct (get_field F "sources") as [| | | | |items|]; done.
    - destruct (get_field F "truthScore") as [| | |[| |q]| | |]; done. }
  apply Hgeneral.
  - simpl. repeat (apply NoDup_cons; split; [by compute_done|]). apply NoDup_nil_2.
  - unfold get_field. cbn [assoc String.eqb Ascii.eqb Bool.eqb default id].
    unfold get, get_field in *. rewrite B1, B2, B5, B6, B7, B8. simpl.
    destruct (default VUndefined (assoc "keyNumbers" fields)); try done;
      destruct (default VUndefined (assoc "measurableFacts" fields)); try done;
      simpl in *; rewrite ?B3, ?B4; done.
  - unfold get_field. cbn [assoc String.eqb Ascii.eqb Bool.eqb default id].
    unfold strip_sources, get, get_field in *.
    destruct (default VUndefined (assoc "sources" fields)) as [| | | | |items|];
      try done. simpl in *. by apply sources_json_item.
  - intros k Hk. unfold get_field. 
    apply elem_of_cons in Hk as [->|Hk];
      [|apply elem_of_cons in Hk as [->|Hk]; [|by apply elem_of_nil in Hk]];
      cbn [assoc String.eqb Ascii.eqb Bool.eqb default id]; unfold get, get_field;
      match goal with
      | |- default_empty ?v ≠ _ => by destruct v
      end.
Qed.
End ResultOnPage.

Section PageAndRoute.
Context `{Platform} `{Service} `{Numerals}.

(** X20. From the page to the route and back: when [analyze] has sent
    its request and the handler has answered it, a result that the page
    then holds came with status 200, has the type [FactCheckResult] that
    [ResultCard] declares for it, and is shown with a score that is an
    integer from 0 to 100. *)
Theorem shown_result_has_declared_type (s s1 : PageState) (sent d : value)
    (log log' : list CreateParams) (r : NextResponse) :
  analyze_start s = (s1, Some sent) →
  POST (request_of sent) log = (log', inr r) →
  result (analyze_settle (received r) s1) = Some d →
  status r = 200
  ∧ FactCheckResult d = true
  ∧ ∃ n : Z, (0 ≤ n ≤ 100)%Z ∧ score (truthScore_of d) = number_of_Z n.
Proof.
  intros Hstart Hpost Hd.
  assert (result s1 = None) as Hnone.
  { unfold analyze_start in Hstart. destruct (imageDataUrl s) as [url|]; [|discriminate].
    destruct (String.eqb url ""); [discriminate|]. by injection Hstart as <- _. }
  unfold analyze_settle in Hd. rewrite (try_received _ log log' r Hpost) in Hd.
  destruct (POST_response_shape _ log log' r Hpost)
    as [(m & Hbody & _)|[(f & Hbody & _)|(parsed & Hbody & Hvalid & Hok)]];
    rewrite Hbody in Hd; cbn [result setLoading setResult setError] in Hd;
    try congruence.
  apply (inj Some) in Hd. subst d.
  destruct (validated_json_item parsed Hvalid) as [Htype Hscore].
  destruct (score_of_truthScore (json_item (validated parsed))) as [Hnull Hnumber].
  split; [done|]. split; [done|].
  rewrite Hscore in Hnull, Hnumber.
  destruct (valid_truthScore parsed Hvalid) as [Hs|(n & Hn & Hs)].
  - exists 0%Z. split; [lia|]. by apply Hnull.
  - exists n. split; [done|]. by apply Hnumber.
Qed.
End PageAndRoute.

Section Reset.
Context `{Numerals}.

(** X21. Escape does not cancel an analysis that is running: the
    shortcut resets the page, the loading flag stays up, and when the
    answer arrives its result is put on the page although the picture is
    gone. *)
Theorem reset_does_not_cancel_analysis (s s1 : PageState) (sent data : value)
    (f : FetchResult) :
  analyze_start s = (s1, Some sent) →
  analyze_try f = inr data →
  handleKeyPress "Escape" s1 = run_resetAll
  ∧ loading (resetAll s1) = true
  ∧ imageDataUrl (analyze_settle f (resetAll s1)) = None
  ∧ result (analyze_settle f (resetAll s1)) = Some data.
Proof.
  unfold analyze_start. intros Hstart Hdata.
  destruct (imageDataUrl s) as [url|] eqn:Hurl; [|discriminate].
  destruct (String.eqb url "") eqn:Hempty; [discriminate|]. injection Hstart as <- _.
  unfold analyze_settle. rewrite Hdata. unfold handleKeyPress. simpl.
  done.
Qed.
End Reset.

(** ** The further properties on examples *)

(** The minimal result of the schema test. *)
Lemma validated_has_type_FactCheckResult_witness :
  @safeParse example_platform factCheckZ minimal = inr minimal
  ∧ FactCheckResult minimal = true.
Proof.
  split; [reflexivity|].
  apply (@validated_has_type_FactCheckResult example_platform minimal minimal).
  reflexivity.
Defined.

(** A candidate with a report and nothing else: the score is missing. *)
Lemma nullable_keys_required_witness :
  "truthScore" ∈ ["productName"; "company"; "category"; "briefContext"; "truthScore"]
  ∧ assoc "truthScore" [("report", VStr "No claim found.")] = None
  ∧ ∃ issues,
      @safeParse example_platform factCheckZ (VObj [("report", VStr "No claim found.")])
      = inl issues
      ∧ {| code := invalid_type; path := [Key "truthScore"]; message := "Required" |}
        ∈ issues.
Proof.
  assert ("truthScore"
          ∈ ["productName"; "company"; "category"; "briefContext"; "truthScore"])
    as Hkey by (do 4 right; left).
  split; [exact Hkey|]. split; [reflexivity|].
  apply (@nullable_keys_required example_platform [("report", VStr "No claim found.")]
           "truthScore"); [exact Hkey | reflexivity].
Defined.

(** A data URL, and a service whose reply reads as the minimal result. *)
Lemma valid_reply_is_returned_witness :
  request_image data_url_request = Some "data:image/webp;base64,UklGRg=="
  ∧ @responses_create (example_service (inr {| output_text := Some "minimal" |}))
      (@create_params (example_service (inr {| output_text := Some "minimal" |}))
         (VStr "data:image/webp;base64,UklGRg=="))
    = inr {| output_text := Some "minimal" |}
  ∧ @JSON_parse (example_platform_reading "minimal" minimal) "minimal" = inr minimal
  ∧ @valid_candidate (example_platform_reading "minimal" minimal) minimal = true
  ∧ @POST (example_platform_reading "minimal" minimal)
      (example_service (inr {| output_text := Some "minimal" |}))
      data_url_request []
    = ([] ++ [@create_params (example_service (inr {| output_text := Some "minimal" |}))
                (VStr "data:image/webp;base64,UklGRg==")],
       inr (NextResponse_json (Result (validated minimal)) 200)).
Proof.
  split; [reflexivity|]. split; [reflexivity|]. split; [reflexivity|].
  split; [reflexivity|].
  apply (@valid_reply_is_returned (example_platform_reading "minimal" minimal)
           (example_service (inr {| output_text := Some "minimal" |}))
           data_url_request "data:image/webp;base64,UklGRg=="
           {| output_text := Some "minimal" |} minimal []); reflexivity.
Defined.

(** The same exchange, read from its response. *)
Lemma ok_response_is_validated_witness :
  @POST (example_platform_reading "minimal" minimal)
    (example_service (inr {| output_text := Some "minimal" |}))
    data_url_request []
  = ([@create_params (example_service (inr {| output_text := Some "minimal" |}))
        (VStr "data:image/webp;base64,UklGRg==")],
     inr (NextResponse_json (Result minimal) 200))
  ∧ status (NextResponse_json (Result minimal) 200) = 200
  ∧ ∃ parsed,
      @valid_candidate (example_platform_reading "minimal" minimal) parsed = true
      ∧ body (NextResponse_json (Result minimal) 200) = Result (validated parsed)
      ∧ FactCheckResult (validated parsed) = true.
Proof.
  split; [reflexivity|]. split; [reflexivity|].
  apply (@ok_response_is_validated (example_platform_reading "minimal" minimal)
           (example_service (inr {| output_text := Some "minimal" |}))
           data_url_request []
           [@create_params (example_service (inr {| output_text := Some "minimal" |}))
              (VStr "data:image/webp;base64,UklGRg==")]
           (NextResponse_json (Result minimal) 200)); reflexivity.
Defined.

(** A data URL, and a service that fails with a message. *)
Lemma service_failure_is_internal_error_witness :
  request_image data_url_request = Some "data:image/webp;base64,UklGRg=="
  ∧ @responses_create (example_service (inl (Some "429 Rate limit reached")))
      (@create_params (example_service (inl (Some "429 Rate limit reached")))
         (VStr "data:image/webp;base64,UklGRg=="))
    = inl (Some "429 Rate limit reached")
  ∧ @POST example_platform (example_service (inl (Some "429 Rate limit reached")))
      data_url_request []
    = ([] ++ [@create_params (example_service (inl (Some "429 Rate limit reached")))
                (VStr "data:image/webp;base64,UklGRg==")],
       inr (NextResponse_json (ErrorMessage "429 Rate limit reached") 500)).
Proof.
  split; [reflexivity|]. split; [reflexivity|].
  apply (@service_failure_is_internal_error example_platform
           (example_service (inl (Some "429 Rate limit reached")))
           data_url_request "data:image/webp;base64,UklGRg=="
           (Some "429 Rate limit reached") []); reflexivity.
Defined.

(** A data URL, and a service that replies with the empty object. *)
Lemma validation_failure_names_a_problem_witness :
  @POST example_platform (example_service (inr {| output_text := Some "{}" |}))
    data_url_request []
  = ([@create_params (example_service (inr {| output_text := Some "{}" |}))
        (VStr "data:image/webp;base64,UklGRg==")],
     inr (NextResponse_json
            (ErrorFields (flatten (@_parse example_platform factCheckZ [] (VObj [])).1))
            422))
  ∧ status
      (NextResponse_json
         (ErrorFields (flatten (@_parse example_platform factCheckZ [] (VObj [])).1))
         422)
    = 422
  ∧ ∃ f,
      body
        (NextResponse_json
           (ErrorFields (flatten (@_parse example_platform factCheckZ [] (VObj [])).1))
           422)
      = ErrorFields f
      ∧ (formErrors f ≠ []
         ∨ ∃ k msgs, fieldErrors f !! k = Some msgs ∧ msgs ≠ []).
Proof.
  split; [reflexivity|]. split; [reflexivity|].
  apply (@validation_failure_names_a_problem example_platform
           (example_service (inr {| output_text := Some "{}" |}))
           data_url_request []
           [@create_params (example_service (inr {| output_text := Some "{}" |}))
              (VStr "data:image/webp;base64,UklGRg==")]
           (NextResponse_json
              (ErrorFields (flatten (@_parse example_platform factCheckZ [] (VObj [])).1))
              422)); reflexivity.
Defined.

(** A data URL, and a service that replies with [null]. *)
Lemma non_object_reply_is_form_error_witness :
  request_image data_url_request = Some "data:image/webp;base64,UklGRg=="
  ∧ @responses_create (example_service (inr {| output_text := Some "null" |}))
      (@create_params (example_service (inr {| output_text := Some "null" |}))
         (VStr "data:image/webp;base64,UklGRg=="))
    = inr {| output_text := Some "null" |}
  ∧ @JSON_parse example_platform "null" = inr VNull
  ∧ is_json_parsed VNull = true
  ∧ (∀ fields, VNull ≠ VObj fields)
  ∧ @POST example_platform (example_service (inr {| output_text := Some "null" |}))
      data_url_request []
    = ([] ++ [@create_params (example_service (inr {| output_text := Some "null" |}))
                (VStr "data:image/webp;base64,UklGRg==")],
       inr (NextResponse_json
              (ErrorFields
                 {| formErrors := ["Expected object, received null"];
                    fieldErrors := ∅ |})
              422)).
Proof.
  split; [reflexivity|]. split; [reflexivity|]. split; [reflexivity|].
  split; [reflexivity|]. split; [discriminate|].
  apply (@non_object_reply_is_form_error example_platform
           (example_service (inr {| output_text := Some "null" |}))
           data_url_request "data:image/webp;base64,UklGRg=="
           {| output_text := Some "null" |} VNull []);
    [reflexivity | reflexivity | reflexivity | reflexivity | discriminate].
Defined.

(** The valid response of the schema test, with its score of 72. *)
Lemma validated_score_is_shown_witness :
  @safeParse example_platform factCheckZ (VObj valid_response_fields)
  = inr (VObj valid_response_fields)
  ∧ ((get (VObj valid_response_fields) "truthScore" = VNull
      ∧ score (truthScore_of (VObj valid_response_fields)) = number_of_Z 0)
     ∨ (∃ n : Z, (0 ≤ n ≤ 100)%Z
                 ∧ get (VObj valid_response_fields) "truthScore"
                   = VNum (number_of_Z n)
                 ∧ score (truthScore_of (VObj valid_response_fields))
                   = number_of_Z n)).
Proof.
  split; [reflexivity|].
  apply (@validated_score_is_shown example_platform (VObj valid_response_fields)
           (VObj valid_response_fields)).
  reflexivity.
Defined.

(** The page with a picture, and a request that the network has
    dropped. *)
Lemma analysis_ends_with_result_or_error_witness :
  analyze_start with_picture
  = (setResult None (setError None (setLoading true with_picture)),
     Some (VObj [("image", VStr "data:image/png;base64,iVBORw0KGgo=")]))
  ∧ loading
      (@analyze_settle example_numerals (fetch_rejected (Some "Failed to fetch"))
         (setResult None (setError None (setLoading true with_picture))))
    = false
  ∧ imageDataUrl
      (@analyze_settle example_numerals (fetch_rejected (Some "Failed to fetch"))
         (setResult None (setError None (setLoading true with_picture))))
    = imageDataUrl with_picture
  ∧ ((∃ data,
        result
          (@analyze_settle example_numerals (fetch_rejected (Some "Failed to fetch"))
             (setResult None (setError None (setLoading true with_picture))))
        = Some data
        ∧ error
            (@analyze_settle example_numerals (fetch_rejected (Some "Failed to fetch"))
               (setResult None (setError None (setLoading true with_picture))))
          = None)
     ∨ (result
          (@analyze_settle example_numerals (fetch_rejected (Some "Failed to fetch"))
             (setResult None (setError None (setLoading true with_picture))))
        = None
        ∧ ∃ m,
            error
              (@analyze_settle example_numerals
                 (fetch_rejected (Some "Failed to fetch"))
                 (setResult None (setError None (setLoading true with_picture))))
            = Some m
            ∧ m ≠ "")).
Proof.
  split; [reflexivity|].
  apply (@analysis_ends_with_result_or_error example_numerals with_picture
           (setResult None (setError None (setLoading true with_picture)))
           (VObj [("image", VStr "data:image/png;base64,iVBORw0KGgo=")])
           (fetch_rejected (Some "Failed to fetch"))).
  reflexivity.
Defined.

(** A gateway that answers 502 with an HTML page. *)
Lemma error_without_text_shows_status_witness :
  res_ok 502 = false
  ∧ True
  ∧ @analyze_settle example_numerals
      (fetch_response 502 (inl (Some "Unexpected token < in JSON at position 0")))
      with_picture
    = setLoading false (setError (Some "Server returned 502") with_picture).
Proof.
  split; [reflexivity|]. split; [exact I|].
  apply (@error_without_text_shows_status example_numerals 502
           (inl (Some "Unexpected token < in JSON at position 0")) with_picture);
    [reflexivity | exact I].
Defined.

(** The page with a picture, and an answer with the minimal result. *)
Lemma one_analysis_at_a_time_witness :
  analyze_start with_picture
  = (setResult None (setError None (setLoading true with_picture)),
     Some (VObj [("image", VStr "data:image/png;base64,iVBORw0KGgo=")]))
  ∧ analyze_disabled (setResult None (setError None (setLoading true with_picture)))
    = true
  ∧ handleKeyPress "Enter"
      (setResult None (setError None (setLoading true with_picture)))
    = no_action
  ∧ analyze_disabled
      (@analyze_settle example_numerals (fetch_response 200 (inr minimal))
         (setResult None (setError None (setLoading true with_picture))))
    = false
  ∧ handleKeyPress "Enter"
      (@analyze_settle example_numerals (fetch_response 200 (inr minimal))
         (setResult None (setError None (setLoading true with_picture))))
    = run_analyze.
Proof.
  split; [reflexivity|].
  apply (@one_analysis_at_a_time example_numerals with_picture
           (setResult None (setError None (setLoading true with_picture)))
           (VObj [("image", VStr "data:image/png;base64,iVBORw0KGgo=")])
           (fetch_response 200 (inr minimal))).
  reflexivity.
Defined.

(** The answer to a request that sends a plain file name. *)
Lemma answer_on_page_witness :
  @POST example_platform (example_service (inr {| output_text := Some "{}" |}))
    filename_request []
  = ([],
     inr (NextResponse_json
            (ErrorMessage
               "Invalid image. Send a data URL (base64) captured from camera or upload.")
            400))
  ∧ @analyze_settle example_numerals
      (received
         (NextResponse_json
            (ErrorMessage
               "Invalid image. Send a data URL (base64) captured from camera or upload.")
            400))
      initial
    = setLoading false
        (setError
           (Some "Invalid image. Send a data URL (base64) captured from camera or upload.")
           initial).
Proof.
  split; [reflexivity|].
  apply (@answer_on_page example_platform
           (example_service (inr {| output_text := Some "{}" |})) example_numerals
           filename_request [] []
           (NextResponse_json
              (ErrorMessage
                 "Invalid image. Send a data URL (base64) captured from camera or upload.")
              400)
           initial).
  reflexivity.
Defined.

(** A small PNG chosen in the file dialog. *)
Lemma chosen_file_reaches_inference_witness :
  (onFileUpload (Some small_png) initial
   = (setError None (setResult None initial), Some small_png)
   ∨ handleDrop (Some small_png) initial
     = (setError None (setResult None initial), Some small_png))
  ∧ String.prefix ("data:" +:+ type small_png) "data:image/png;base64,iVBORw0KGgo="
    = true
  ∧ ∃ sent,
      (analyze_start
         (reader_onload "data:image/png;base64,iVBORw0KGgo="
            (setError None (setResult None initial)))).2
      = Some sent
      ∧ request_image (request_of sent) = Some "data:image/png;base64,iVBORw0KGgo=".
Proof.
  assert (onFileUpload (Some small_png) initial
          = (setError None (setResult None initial), Some small_png)
          ∨ handleDrop (Some small_png) initial
            = (setError None (setResult None initial), Some small_png)) as Hchosen
    by (left; reflexivity).
  split; [exact Hchosen|]. split; [reflexivity|].
  apply (chosen_file_reaches_inference small_png initial
           (setError None (setResult None initial))
           "data:image/png;base64,iVBORw0KGgo="); [exact Hchosen | reflexivity].
Defined.

(** A JPEG of 12 MiB. *)
Lemma drop_has_no_size_limit_witness :
  (maxSize < size large_jpeg)%Z
  ∧ String.prefix "image/" (type large_jpeg) = true
  ∧ onFileUpload (Some large_jpeg) initial
    = (setError (Some "File too large. Please use an image under 10MB.") initial, None)
  ∧ handleDrop (Some large_jpeg) initial
    = (setError None (setResult None initial), Some large_jpeg).
Proof.
  assert (maxSize < size large_jpeg)%Z as Hsize by (vm_compute; reflexivity).
  split; [exact Hsize|]. split; [reflexivity|].
  apply (drop_has_no_size_limit large_jpeg initial); [exact Hsize | reflexivity].
Defined.

(** The page with a picture, the route, and a service whose reply reads
    as the minimal result. *)
Lemma shown_result_has_declared_type_witness :
  analyze_start with_picture
  = (setResult None (setError None (setLoading true with_picture)),
     Some (VObj [("image", VStr "data:image/png;base64,iVBORw0KGgo=")]))
  ∧ @POST (example_platform_reading "minimal" minimal)
      (example_service (inr {| output_text := Some "minimal" |}))
      (request_of (VObj [("image", VStr "data:image/png;base64,iVBORw0KGgo=")])) []
    = ([@create_params (example_service (inr {| output_text := Some "minimal" |}))
          (VStr "data:image/png;base64,iVBORw0KGgo=")],
       inr (NextResponse_json (Result minimal) 200))
  ∧ result
      (@analyze_settle example_numerals
         (received (NextResponse_json (Result minimal) 200))
         (setResult None (setError None (setLoading true with_picture))))
    = Some minimal
  ∧ status (NextResponse_json (Result minimal) 200) = 200
  ∧ FactCheckResult minimal = true
  ∧ ∃ n : Z, (0 ≤ n ≤ 100)%Z ∧ score (truthScore_of minimal) = number_of_Z n.
Proof.
  split; [reflexivity|]. split; [reflexivity|]. split; [reflexivity|].
  apply (@shown_result_has_declared_type (example_platform_reading "minimal" minimal)
           (example_service (inr {| output_text := Some "minimal" |})) example_numerals
           with_picture
           (setResult None (setError None (setLoading true with_picture)))
           (VObj [("image", VStr "data:image/png;base64,iVBORw0KGgo=")]) minimal
           []
           [@create_params (example_service (inr {| output_text := Some "minimal" |}))
              (VStr "data:image/png;base64,iVBORw0KGgo=")]
           (NextResponse_json (Result minimal) 200)); reflexivity.
Defined.

(** The page with a picture, Escape, and then the answer. *)
Lemma reset_does_not_cancel_analysis_witness :
  analyze_start with_picture
  = (setResult None (setError None (setLoading true with_picture)),
     Some (VObj [("image", VStr "data:image/png;base64,iVBORw0KGgo=")]))
  ∧ @analyze_try example_numerals (fetch_response 200 (inr minimal)) = inr minimal
  ∧ handleKeyPress "Escape"
      (setResult None (setError None (setLoading true with_picture)))
    = run_resetAll
  ∧ loading (resetAll (setResult None (setError None (setLoading true with_picture))))
    = true
  ∧ imageDataUrl
      (@analyze_settle example_numerals (fetch_response 200 (inr minimal))
         (resetAll (setResult None (setError None (setLoading true with_picture)))))
    = None
  ∧ result
      (@analyze_settle example_numerals (fetch_response 200 (inr minimal))
         (resetAll (setResult None (setError None (setLoading true with_picture)))))
    = Some minimal.
Proof.
  split; [reflexivity|]. split; [reflexivity|].
  apply (@reset_does_not_cancel_analysis example_numerals with_picture
           (setResult None (setError None (setLoading true with_picture)))
           (VObj [("image", VStr "data:image/png;base64,iVBORw0KGgo=")]) minimal
           (fetch_response 200 (inr minimal))); reflexivity.
Defined.
